(** * FreqDemod: a shallow embedding of [freqdemod.py]

    The module [freqdemod.py] (Python 2: it uses the [print] statement, so
    [/] between two integers is floor division and [round] rounds halves
    away from zero) holds one class, [Signal], whose methods are the stages
    of a demodulation pipeline.  Each method reads and writes the dictionary
    [self.signal].

    Modelling choices.
    - A Python or numpy float is an exact rational ([Q]): the arithmetic the
      code writes itself ([+], [-], [*], [/]) is exact, and round-off is not
      modelled.  Where a numpy array division can hit a zero divisor, which
      numpy answers with nan or inf and a warning instead of an exception,
      the value is a [float] ([option Q], [None] for a non-finite value).
    - What numpy computes behind one call and is not rational (the FFT, the
      complex modulus, the angle, the unwrapping, the Blackman taper) is an
      operation of the interface [NumLib]; the laws of the interface are the
      facts about these operations that the proofs use.
    - The dictionary [self.signal] is a record whose keys written after
      [__init__] are optional fields; reading an absent key raises
      [KeyError].
    - A method is a function from the record to an [outcome]: the record
      after the call, the Python exception that the call raises, or
      [NonFinite] when an array that later lines of the method consume holds
      a non-finite entry (the call is then not followed further).
    - The list [self.report] of messages is left out: no stage reads it. *)

From Stdlib Require Import ZArith QArith Qround Qabs Qpower Qfield.
From Stdlib Require Import String List Bool Lia Lqa.
Import ListNotations.

Set Implicit Arguments.

(** ** Outcomes of a call *)

Inductive pyexc : Type :=
| ValueError
| ZeroDivisionError
| IndexError
| KeyError.

Inductive outcome (A : Type) : Type :=
| Ok (a : A)
| Raise (e : pyexc)
| NonFinite.

Arguments Ok {A} a.
Arguments Raise {A} e.
Arguments NonFinite {A}.

Definition bind {A B : Type} (c : outcome A) (k : A -> outcome B) : outcome B :=
  match c with
  | Ok a => k a
  | Raise e => Raise e
  | NonFinite => NonFinite
  end.

Declare Scope py_scope.
Delimit Scope py_scope with py.
Notation "x <- c ;; k" := (bind c (fun x => k))
  (at level 61, c at next level, right associativity) : py_scope.

(** [self.signal[key]] for a key that a later stage writes. *)
Definition getkey {A : Type} (o : option A) : outcome A :=
  match o with
  | Some v => Ok v
  | None => Raise KeyError
  end.

(** ** Python numbers *)

(** [int(x)] for a float: truncation towards zero. *)
Definition py_int (q : Q) : Z := Z.quot (Qnum q) (Zpos (Qden q)).

(** [round(x)] of Python 2: the nearest integer, halves away from zero. *)
Definition py_round (q : Q) : Z :=
  if Qle_bool 0 q then Qfloor (q + (1 # 2)) else Qceiling (q - (1 # 2)).

(** [x / y] between Python floats. *)
Definition py_fdiv (x y : Q) : outcome Q :=
  if Qeq_bool y 0 then Raise ZeroDivisionError else Ok (x / y)%Q.

(** [n / m] between Python 2 integers: floor division. *)
Definition py_idiv (n m : Z) : outcome Z :=
  if (m =? 0)%Z then Raise ZeroDivisionError else Ok (n / m)%Z.

(** A numpy float that may be non-finite. *)
Definition float : Type := option Q.

(** [x / y] inside a numpy array expression: a zero divisor gives nan or
    inf, not an exception. *)
Definition np_fdiv (x y : Q) : float :=
  if Qeq_bool y 0 then None else Some (x / y)%Q.

Definition feq (x y : float) : Prop :=
  match x, y with
  | Some p, Some q => (p == q)%Q
  | None, None => True
  | _, _ => False
  end.

(** ** numpy arrays as lists *)

Section Arrays.

Variable A : Type.

(** The bound of a slice [x[i:j]]: a negative bound counts from the end,
    and the result is clamped to the array. *)
Definition slice_index (len i : Z) : Z :=
  let j := if (i <? 0)%Z then (i + len)%Z else i in
  Z.max 0 (Z.min len j).

(** [x[start:stop]]; [None] is an omitted bound. *)
Definition py_slice (l : list A) (start stop : option Z) : list A :=
  let len := Z.of_nat (length l) in
  let a := match start with Some i => slice_index len i | None => 0%Z end in
  let b := match stop with Some j => slice_index len j | None => len end in
  firstn (Z.to_nat (b - a)) (skipn (Z.to_nat a) l).

(** [x[i]] for one integer. *)
Definition np_getitem (l : list A) (i : Z) : outcome A :=
  let len := Z.of_nat (length l) in
  let j := if (i <? 0)%Z then (i + len)%Z else i in
  if ((j <? 0) || (len <=? j))%Z then Raise IndexError
  else match nth_error l (Z.to_nat j) with
       | Some v => Ok v
       | None => Raise IndexError
       end.

(** [x[indices]] for a list of integers. *)
Fixpoint np_take (l : list A) (indices : list Z) : outcome (list A) :=
  match indices with
  | [] => Ok []
  | i :: rest =>
      (v <- np_getitem l i ;;
       vs <- np_take l rest ;;
       Ok (v :: vs))%py
  end.

(** The rows of [x.reshape((rows, cols))] for a one-dimensional [x].
    numpy would read a dimension [-1] as "infer"; in [fit] a negative
    dimension never comes with a shape that numpy can complete, so every
    negative dimension is a [ValueError] here. *)
Fixpoint rows_of (rows : nat) (cols : nat) (l : list A) : list (list A) :=
  match rows with
  | O => []
  | S k => firstn cols l :: rows_of k cols (skipn cols l)
  end.

Definition np_reshape (l : list A) (rows cols : Z) : outcome (list (list A)) :=
  if ((rows <? 0) || (cols <? 0))%Z then Raise ValueError
  else if (rows * cols =? Z.of_nat (length l))%Z
       then Ok (rows_of (Z.to_nat rows) (Z.to_nat cols) l)
       else Raise ValueError.

(** [np.fft.fftshift(x)]: the array rolled by [len(x)//2] places. *)
Definition fftshift (l : list A) : list A :=
  let p := (length l - Nat.div2 (length l))%nat in
  skipn p l ++ firstn p l.

End Arrays.

(** [np.arange(a, b)] *)
Definition arange (a b : Z) : list Z :=
  map (fun k => (a + Z.of_nat k)%Z) (seq 0 (Z.to_nat (b - a))).

(** [np.ones(n)] *)
Definition np_ones (n : Z) : outcome (list Q) :=
  if (n <? 0)%Z then Raise ValueError else Ok (repeat 1%Q (Z.to_nat n)).

(** [x * y] between one-dimensional arrays, for the product [op]:
    elementwise, an array of one element is broadcast, any other mismatch
    is a [ValueError]. *)
Definition np_mul {A B C : Type} (op : A -> B -> C) (x : list A) (y : list B)
  : outcome (list C) :=
  if (length x =? length y)%nat then Ok (map (fun p => op (fst p) (snd p)) (combine x y))
  else match x, y with
       | [u], _ => Ok (map (fun v => op u v) y)
       | _, [v] => Ok (map (fun u => op u v) x)
       | _, _ => Raise ValueError
       end.

Definition Qsum (l : list Q) : Q := fold_right Qplus 0%Q l.

(** [np.fft.fftfreq(n, d)]: the integers [0 .. (n-1)//2] and then
    [-(n//2) .. -1], each times [1.0/(n*d)]. *)
Definition fftfreq (n : Z) (d : Q) : outcome (list Q) :=
  (val <- py_fdiv 1 (inject_Z n * d) ;;
   let N := ((n - 1) / 2 + 1)%Z in
   Ok (map (fun k => (inject_Z k * val)%Q) (arange 0 N ++ arange (- (n / 2)) 0)))%py.

(** [np.argmax(x)]: the first index of the greatest element. *)
Fixpoint argmax_from (best : Q) (besti i : nat) (l : list Q) : nat :=
  match l with
  | [] => besti
  | x :: rest =>
      if Qle_bool x best then argmax_from best besti (S i) rest
      else argmax_from x i (S i) rest
  end.

Definition np_argmax (l : list Q) : outcome Z :=
  match l with
  | [] => Raise ValueError
  | x :: rest => Ok (Z.of_nat (argmax_from x 0 1 rest))
  end.

(** An array expression whose entries are all finite. *)
Fixpoint all_finite (l : list float) : outcome (list Q) :=
  match l with
  | [] => Ok []
  | Some q :: rest => (qs <- all_finite rest ;; Ok (q :: qs))%py
  | None :: _ => NonFinite
  end.

(** [x[:, 0]] for the rows of a two-dimensional array with at least one
    column. *)
Fixpoint column0 {A : Type} (rows : list (list A)) : outcome (list A) :=
  match rows with
  | [] => Ok []
  | [] :: _ => Raise IndexError
  | (v :: _) :: rest => (vs <- column0 rest ;; Ok (v :: vs))%py
  end.

(** [x - x[:,:,np.newaxis][:,0,:]*np.ones(cols)]: every row minus its own
    first entry. *)
Definition reset_rows (rows : list (list Q)) : list (list Q) :=
  map (fun row => map (fun y => (y - hd 0 row * 1)%Q) row) rows.

(** [1.0/(1.0 + np.power(abs(x), order))]; numpy gives [inf] for a zero
    base with a negative exponent, and the quotient is then [0.0]. *)
Definition bp_gain (order : Z) (x : Q) : Q :=
  if ((order <? 0)%Z && Qeq_bool x 0)%bool then 0%Q
  else (1 / (1 + Qpower (Qabs x) order))%Q.

(** ** The numerical library *)

Class NumLib : Type := {
  cplx : Type;
  (** [np.fft.fft] and [np.fft.ifft] on a non-empty array *)
  np_fft : list Q -> list cplx;
  np_ifft : list cplx -> list cplx;
  (** a real times a complex *)
  cscale : Q -> cplx -> cplx;
  (** [abs] of a complex *)
  cabs : cplx -> Q;
  np_angle : cplx -> Q;
  np_unwrap : list Q -> list Q;
  np_pi : Q;
  (** [sp.blackman(M)] *)
  blackman : Z -> list Q;
  np_fft_length : forall l, length (np_fft l) = length l;
  np_ifft_length : forall l, length (np_ifft l) = length l;
  np_unwrap_length : forall l, length (np_unwrap l) = length l;
  blackman_length : forall M, length (blackman M) = Z.to_nat M;
  np_pi_pos : (0 < np_pi)%Q;
  cabs_nonneg : forall c, (0 <= cabs c)%Q;
  cabs_cscale : forall q c, (cabs (cscale q c) == Qabs q * cabs c)%Q
}.

(** ** The class [Signal] *)

Module Signal.

Section WithNumLib.

Context `{NumLib}.

Local Open Scope py_scope.

(** The dictionary [self.signal]. *)
Record signal : Type := mkSignal {
  s : list Q;
  s_name : string;
  s_unit : string;
  dt : Q;
  t : list Q;
  s_original : option (list Q);
  t_original : option (list Q);
  w : option (list Q);
  sw : option (list Q);
  tw_actual : option Q;
  swFT : option (list cplx);
  f : option (list Q);
  df : option Q;
  bw : option Q;
  order : option Z;
  rh : option (list Q);
  f0 : option Q;
  bp : option (list Q);
  swFTfilt : option (list cplx);
  f00 : option float;
  td : option Q;
  z : option (list cplx);
  theta : option (list Q);
  a : option (list Q);
  fit_freq : option (list float);
  fit_time : option (list Q)
}.

(** The dictionary that [__init__] builds. *)
Definition init_signal (s0 : list Q) (s_name0 s_unit0 : string) (dt0 : Q)
  : signal :=
  {| s := s0; s_name := s_name0; s_unit := s_unit0;
     dt := dt0;
     t := map (fun k => (dt0 * inject_Z k)%Q)
              (arange 0 (Z.of_nat (length s0)));
     s_original := None; t_original := None;
     w := None; sw := None; tw_actual := None;
     swFT := None; f := None; df := None;
     bw := None; order := None; rh := None; f0 := None; bp := None;
     swFTfilt := None; f00 := None; td := None;
     z := None; theta := None; a := None;
     fit_freq := None; fit_time := None |}.

Definition __init__ (s0 : list Q) (s_name0 s_unit0 : string) (dt0 : Q)
  : outcome signal :=
  Ok (init_signal s0 s_name0 s_unit0 dt0).

(** [n2 = int(math.pow(2, int(math.floor(math.log(n, 2)))))], with the
    logarithm exact. *)
Definition binarate_n2 (n : Z) : Z := (2 ^ Z.log2 n)%Z.

(** The pair [(n_start, n_stop)] that [binarate] selects. *)
Definition binarate_range (mode : string) (n : Z) : Z * Z :=
  let n2 := binarate_n2 n in
  if (mode =? "middle")%string then
    let n_start := ((n - n2) / 2)%Z in (n_start, (n_start + n2)%Z)
  else if (mode =? "start")%string then (0%Z, n2)
  else if (mode =? "end")%string then ((n - n2)%Z, n)
  else (0%Z, n).

Definition binarate (mode : string) (r : signal) : outcome signal :=
  let n := Z.of_nat (length r.(s)) in
  if (n <=? 0)%Z then Raise ValueError (* math.log(0, 2) *)
  else
    let '(n_start, n_stop) := binarate_range mode n in
    let array_indices := arange n_start n_stop in
    s' <- np_take r.(s) array_indices ;;
    t' <- np_take r.(t) array_indices ;;
    Ok {| s := s'; s_name := r.(s_name); s_unit := r.(s_unit);
          dt := r.(dt); t := t';
          s_original := Some r.(s); t_original := Some r.(t);
          w := r.(w); sw := r.(sw); tw_actual := r.(tw_actual);
          swFT := r.(swFT); f := r.(f); df := r.(df);
          bw := r.(bw); order := r.(order); rh := r.(rh); f0 := r.(f0);
          bp := r.(bp); swFTfilt := r.(swFTfilt); f00 := r.(f00);
          td := r.(td); z := r.(z); theta := r.(theta); a := r.(a);
          fit_freq := r.(fit_freq); fit_time := r.(fit_time) |}.

Definition window (tw : Q) (r : signal) : outcome signal :=
  q <- py_fdiv (1 * tw) (1 * r.(dt)) ;;
  let ww := Qceiling q in
  let n := Z.of_nat (length r.(s)) in
  let tw_actual' := (inject_Z ww * r.(dt))%Q in
  ones <- np_ones (n - 2 * ww) ;;
  let w' := py_slice (blackman (2 * ww)) (Some 0%Z) (Some ww)
            ++ ones
            ++ py_slice (blackman (2 * ww)) (Some (- ww)%Z) None in
  sw' <- np_mul Qmult w' r.(s) ;;
  Ok {| s := r.(s); s_name := r.(s_name); s_unit := r.(s_unit);
        dt := r.(dt); t := r.(t);
        s_original := r.(s_original); t_original := r.(t_original);
        w := Some w'; sw := Some sw'; tw_actual := Some tw_actual';
        swFT := r.(swFT); f := r.(f); df := r.(df);
        bw := r.(bw); order := r.(order); rh := r.(rh); f0 := r.(f0);
        bp := r.(bp); swFTfilt := r.(swFTfilt); f00 := r.(f00);
        td := r.(td); z := r.(z); theta := r.(theta); a := r.(a);
        fit_freq := r.(fit_freq); fit_time := r.(fit_time) |}.

Definition fft (r : signal) : outcome signal :=
  sw0 <- getkey r.(sw) ;;
  match sw0 with
  | [] => Raise ValueError (* np.fft.fft of no data points *)
  | _ =>
      let swFT' := fftshift (np_fft sw0) in
      freq <- fftfreq (Z.of_nat (length swFT')) r.(dt) ;;
      let f' := fftshift freq in
      f_1 <- np_getitem f' 1 ;;
      f_0 <- np_getitem f' 0 ;;
      let df' := (f_1 - f_0)%Q in
      Ok {| s := r.(s); s_name := r.(s_name); s_unit := r.(s_unit);
            dt := r.(dt); t := r.(t);
            s_original := r.(s_original); t_original := r.(t_original);
            w := r.(w); sw := r.(sw); tw_actual := r.(tw_actual);
            swFT := Some swFT'; f := Some f'; df := Some df';
            bw := r.(bw); order := r.(order); rh := r.(rh); f0 := r.(f0);
            bp := r.(bp); swFTfilt := r.(swFTfilt); f00 := r.(f00);
            td := r.(td); z := r.(z); theta := r.(theta); a := r.(a);
            fit_freq := r.(fit_freq); fit_time := r.(fit_time) |}
  end.

(** The default of the parameter [order] of [filter]. *)
Definition default_order : Z := 50%Z.

(** [f_shifted = self.signal['f'] - self.signal['df']/2] *)
Definition filter_f_shifted (f' : list Q) (df' : Q) : list Q :=
  map (fun x => (x - df' / 2)%Q) f'.

(** [(abs(f_shifted) + f_shifted)/(abs(f_shifted))] *)
Definition filter_rh (f' : list Q) (df' : Q) : list float :=
  map (fun x => np_fdiv (Qabs x + x) (Qabs x)) (filter_f_shifted f' df').

(** [swFTrh = self.signal['rh']*self.signal['swFT']], the right-hand
    spectrum. *)
Definition filter_swFTrh (r : signal) : outcome (list Q * list cplx) :=
  f' <- getkey r.(f) ;;
  df' <- getkey r.(df) ;;
  let rh_expr := filter_rh f' df' in
  swFT' <- getkey r.(swFT) ;;
  rh' <- all_finite rh_expr ;;
  swFTrh <- np_mul cscale rh' swFT' ;;
  Ok (rh', swFTrh).

Definition filter (bw0 : Q) (order0 : Z) (r : signal) : outcome signal :=
  f' <- getkey r.(f) ;;
  rhs <- filter_swFTrh r ;;
  let rh' := fst rhs in
  let swFTrh := snd rhs in
  k <- np_argmax (map cabs swFTrh) ;;
  f0' <- np_getitem f' k ;;
  let f_scaled := map (fun x => ((x - f0') / bw0)%Q) f' in
  let bp' := map (bp_gain order0) f_scaled in
  swFTfilt' <- np_mul (fun c g => cscale g c) swFTrh bp' ;;
  let b := map cabs swFTfilt' in
  ab <- np_mul Qmult f' b ;;
  let f00' := np_fdiv (Qsum ab) (Qsum b) in
  td' <- py_fdiv (5 # 4) bw0 ;;
  Ok {| s := r.(s); s_name := r.(s_name); s_unit := r.(s_unit);
        dt := r.(dt); t := r.(t);
        s_original := r.(s_original); t_original := r.(t_original);
        w := r.(w); sw := r.(sw); tw_actual := r.(tw_actual);
        swFT := r.(swFT); f := r.(f); df := r.(df);
        bw := Some bw0; order := Some order0; rh := Some rh';
        f0 := Some f0'; bp := Some bp'; swFTfilt := Some swFTfilt';
        f00 := Some f00'; td := Some td';
        z := r.(z); theta := r.(theta); a := r.(a);
        fit_freq := r.(fit_freq); fit_time := r.(fit_time) |}.

Definition ifft (r : signal) : outcome signal :=
  swFTfilt' <- getkey r.(swFTfilt) ;;
  match swFTfilt' with
  | [] => Raise ValueError (* np.fft.ifft of no data points *)
  | _ =>
      let z' := np_ifft (fftshift swFTfilt') in
      let theta' := map (fun x => (x / (2 * np_pi))%Q)
                        (np_unwrap (map np_angle z')) in
      let a' := map cabs z' in
      Ok {| s := r.(s); s_name := r.(s_name); s_unit := r.(s_unit);
            dt := r.(dt); t := r.(t);
            s_original := r.(s_original); t_original := r.(t_original);
            w := r.(w); sw := r.(sw); tw_actual := r.(tw_actual);
            swFT := r.(swFT); f := r.(f); df := r.(df);
            bw := r.(bw); order := r.(order); rh := r.(rh); f0 := r.(f0);
            bp := r.(bp); swFTfilt := r.(swFTfilt); f00 := r.(f00);
            td := r.(td); z := Some z'; theta := Some theta'; a := Some a';
            fit_freq := r.(fit_freq); fit_time := r.(fit_time) |}
  end.

(** [id = int(self.signal['td']/self.signal['dt'])] *)
Definition trim_id (r : signal) : outcome Z :=
  td' <- getkey r.(td) ;;
  q <- py_fdiv td' r.(dt) ;;
  Ok (py_int q).

Definition trim (r : signal) : outcome signal :=
  id <- trim_id r ;;
  z0 <- getkey r.(z) ;;
  let z' := py_slice z0 (Some id) (Some (- id)%Z) in
  theta0 <- getkey r.(theta) ;;
  let theta' := py_slice theta0 (Some id) (Some (- id)%Z) in
  a0 <- getkey r.(a) ;;
  let a' := py_slice a0 (Some id) (Some (- id)%Z) in
  let t' := py_slice r.(t) (Some id) (Some (- id)%Z) in
  Ok {| s := r.(s); s_name := r.(s_name); s_unit := r.(s_unit);
        dt := r.(dt); t := t';
        s_original := r.(s_original); t_original := r.(t_original);
        w := r.(w); sw := r.(sw); tw_actual := r.(tw_actual);
        swFT := r.(swFT); f := r.(f); df := r.(df);
        bw := r.(bw); order := r.(order); rh := r.(rh); f0 := r.(f0);
        bp := r.(bp); swFTfilt := r.(swFTfilt); f00 := r.(f00);
        td := r.(td); z := Some z'; theta := Some theta'; a := Some a';
        fit_freq := r.(fit_freq); fit_time := r.(fit_time) |}.

(** [n_per_chunk = int(round(dt_chunk_target/self.signal['dt']))] *)
Definition fit_n_per_chunk (dt_chunk_target : Q) (r : signal) : outcome Z :=
  q <- py_fdiv dt_chunk_target r.(dt) ;;
  Ok (py_round q).

(** [n_tot_chunk = int(round(self.signal['theta'].size/n_per_chunk))]:
    the quotient of two integers, then rounded. *)
Definition fit_n_tot_chunk (size n_per_chunk : Z) : outcome Z :=
  d <- py_idiv size n_per_chunk ;;
  Ok (py_round (inject_Z d)).

Definition fit_SX (dt0 : Q) (n_per_chunk : Z) : Q :=
  (dt0 * (1 # 2) * (inject_Z n_per_chunk - 1) * inject_Z n_per_chunk)%Q.

Definition fit_SXX (dt0 : Q) (n_per_chunk : Z) : Q :=
  (dt0 ^ 2 * (1 / 6) * inject_Z n_per_chunk * (inject_Z n_per_chunk - 1)
   * (2 * inject_Z n_per_chunk - 1))%Q.

(** One entry of [slope], from the sums of one chunk. *)
Definition fit_slope (dt0 : Q) (n_per_chunk : Z) (SXY SY : Q) : float :=
  let SX := fit_SX dt0 n_per_chunk in
  let SXX := fit_SXX dt0 n_per_chunk in
  np_fdiv (inject_Z n_per_chunk * SXY - SX * SY)
          (inject_Z n_per_chunk * SXX - SX * SX).

(** [x[0:n_total].reshape((n_tot_chunk, n_per_chunk))] *)
Definition fit_sub (x : list Q) (n_tot_chunk n_per_chunk : Z)
  : outcome (list (list Q)) :=
  let n_total := (n_per_chunk * n_tot_chunk)%Z in
  np_reshape (py_slice x (Some 0%Z) (Some n_total)) n_tot_chunk n_per_chunk.

(** The array [slope], from the chunks of the time and of the phase. *)
Definition fit_slopes (dt0 : Q) (n_per_chunk : Z)
           (t_sub s_sub : list (list Q)) : list float :=
  let s_sub_reset := reset_rows s_sub in
  let t_sub_reset := reset_rows t_sub in
  let SY := map Qsum s_sub_reset in
  let SXY := map (fun p => Qsum (map (fun xy => (fst xy * snd xy)%Q)
                                     (combine (fst p) (snd p))))
                 (combine t_sub_reset s_sub_reset) in
  map (fun p => fit_slope dt0 n_per_chunk (fst p) (snd p)) (combine SXY SY).

Definition fit (dt_chunk_target : Q) (r : signal) : outcome signal :=
  n_per_chunk <- fit_n_per_chunk dt_chunk_target r ;;
  theta0 <- getkey r.(theta) ;;
  n_tot_chunk <- fit_n_tot_chunk (Z.of_nat (length theta0)) n_per_chunk ;;
  s_sub <- fit_sub theta0 n_tot_chunk n_per_chunk ;;
  t_sub <- fit_sub r.(t) n_tot_chunk n_per_chunk ;;
  let slope := fit_slopes r.(dt) n_per_chunk t_sub s_sub in
  fit_time' <- column0 t_sub ;;
  Ok {| s := r.(s); s_name := r.(s_name); s_unit := r.(s_unit);
        dt := r.(dt); t := r.(t);
        s_original := r.(s_original); t_original := r.(t_original);
        w := r.(w); sw := r.(sw); tw_actual := r.(tw_actual);
        swFT := r.(swFT); f := r.(f); df := r.(df);
        bw := r.(bw); order := r.(order); rh := r.(rh); f0 := r.(f0);
        bp := r.(bp); swFTfilt := r.(swFTfilt); f00 := r.(f00);
        td := r.(td); z := r.(z); theta := r.(theta); a := r.(a);
        fit_freq := Some slope; fit_time := Some fit_time' |}.

End WithNumLib.

End Signal.

(** ** The pipeline *)

(** One call of a method of [Signal] after construction. *)
Inductive stage : Type :=
| Binarate (mode : string)
| Window (tw : Q)
| Fft
| Filter (bw0 : Q) (order0 : Z)
| Ifft
| Trim
| Fit (dt_chunk_target : Q).

Definition run_stage `{NumLib} (st : stage) (r : Signal.signal)
  : outcome Signal.signal :=
  match st with
  | Binarate mode => Signal.binarate mode r
  | Window tw => Signal.window tw r
  | Fft => Signal.fft r
  | Filter bw0 order0 => Signal.filter bw0 order0 r
  | Ifft => Signal.ifft r
  | Trim => Signal.trim r
  | Fit dt_chunk_target => Signal.fit dt_chunk_target r
  end.

(** A sequence of calls, stopped by the first one that does not return. *)
Fixpoint run_stages `{NumLib} (sts : list stage) (r : Signal.signal)
  : outcome Signal.signal :=
  match sts with
  | [] => Ok r
  | st :: rest => (r' <- run_stage st r ;; run_stages rest r')%py
  end.

(** The calls that [main] makes on the record it has constructed, in its
    order.  [main] passes the mode middle, the rise time [1E-3], the
    bandwidth [4E3] with the default order, and the chunk duration
    [201.34E-6]. *)
Definition main_stages (mode : string) (tw bw0 : Q) (order0 : Z)
           (dt_chunk_target : Q) : list stage :=
  [Binarate mode; Window tw; Fft; Filter bw0 order0; Ifft; Trim;
   Fit dt_chunk_target].

(** ** Definitions for the statements *)

(** The first index that binaration keeps, in the words of the description
    of the three modes. *)
Definition kept_from (mode : string) (n n2 : nat) : nat :=
  if (mode =? "start")%string then 0%nat
  else if (mode =? "end")%string then (n - n2)%nat
  else ((n - n2) / 2)%nat.

(** A list without its first [k] and its last [k] entries. *)
Definition drop_both_ends {A : Type} (k : nat) (l : list A) : list A :=
  firstn (length l - 2 * k) (skipn k l).

(** The four arrays that [trim] rewrites have each lost [k] entries at the
    start and [k] entries at the end. *)
Definition trimmed_by `{NumLib} (k : nat) (r r' : Signal.signal) : Prop :=
  Signal.z r' = option_map (drop_both_ends k) (Signal.z r)
  /\ Signal.theta r' = option_map (drop_both_ends k) (Signal.theta r)
  /\ Signal.a r' = option_map (drop_both_ends k) (Signal.a r)
  /\ Signal.t r' = drop_both_ends k (Signal.t r).

(** Entry [k] of chunk [i] of an array cut into chunks of [n] entries,
    after the first entry of the chunk is subtracted. *)
Definition chunk_reset (x : list Q) (n i k : nat) : Q :=
  (nth (i * n + k) x 0 - nth (i * n) x 0)%Q.

(** The sums over chunk [i] of the reset phase and of the product of the
    reset time and the reset phase. *)
Definition chunk_Sy (theta0 : list Q) (n i : nat) : Q :=
  Qsum (map (chunk_reset theta0 n i) (seq 0 n)).

Definition chunk_Sxy (t0 theta0 : list Q) (n i : nat) : Q :=
  Qsum (map (fun k => (chunk_reset t0 n i k * chunk_reset theta0 n i k)%Q)
            (seq 0 n)).

(** The sums over the time of a chunk in closed form. *)
Definition analytic_Sx (dt0 : Q) (n : Z) : Q :=
  (dt0 * inject_Z n * (inject_Z n - 1) / 2)%Q.

Definition analytic_Sxx (dt0 : Q) (n : Z) : Q :=
  (dt0 * dt0 * inject_Z n * (inject_Z n - 1) * (2 * inject_Z n - 1) / 6)%Q.

(** The least-squares slope [(n*Sxy - Sx*Sy)/(n*Sxx - Sx^2)], non-finite
    when the divisor is zero. *)
Definition ols_slope (n : Z) (Sx Sxx Sy Sxy : Q) : float :=
  np_fdiv (inject_Z n * Sxy - Sx * Sy) (inject_Z n * Sxx - Sx * Sx).

(** [reset_rows] on one row. *)
Definition reset_row (row : list Q) : list Q :=
  map (fun y => (y - hd 0 row * 1)%Q) row.

(** ** The claims that the code does not meet, as they are worded *)

(** The claim that construction rejects a non-positive sampling interval
    and an empty sample sequence, as the description of the stage words
    it. *)
Definition ingest_rejects_invalid_input `{NumLib} : Prop :=
  forall (s0 : list Q) (s_name0 s_unit0 : string) (dt0 : Q),
    (dt0 <= 0)%Q \/ s0 = [] ->
    exists e, Signal.__init__ s0 s_name0 s_unit0 dt0 = Raise e.

(** The claim that [trim] removes [round(td/dt)] entries from both ends, as
    the description of the stage words it. *)
Definition trim_removes_rounded `{NumLib} : Prop :=
  forall (r r' : Signal.signal) (td0 : Q),
    Signal.td r = Some td0 ->
    Signal.trim r = Ok r' ->
    trimmed_by (Z.to_nat (py_round (td0 / Signal.dt r))) r r'.

(** The claim that samples and time have one length after every stage, as
    the invariant of the data model words it. *)
Definition samples_and_time_same_length `{NumLib} : Prop :=
  forall (s0 : list Q) (s_name0 s_unit0 : string) (dt0 : Q)
         (sts : list stage) (r0 r' : Signal.signal),
    Signal.__init__ s0 s_name0 s_unit0 dt0 = Ok r0 ->
    run_stages sts r0 = Ok r' ->
    length (Signal.s r') = length (Signal.t r').

(** The claim that [filter] fails when the right-hand spectrum is zero
    everywhere, as the description of the stage words it. *)
Definition filter_rejects_zero_spectrum `{NumLib} : Prop :=
  forall (r : Signal.signal) (bw0 : Q) (order0 : Z)
         (rh' : list Q) (swFTrh : list cplx),
    Signal.filter_swFTrh r = Ok (rh', swFTrh) ->
    Forall (fun c => (cabs c == 0)%Q) swFTrh ->
    exists e, Signal.filter bw0 order0 r = Raise e.

(** The claim that the number of chunks is the quotient of the number of
    phase samples by the samples per chunk, rounded to the nearest
    integer, as the description of the stage words it. *)
Definition fit_rounds_chunk_count `{NumLib} : Prop :=
  forall (r r' : Signal.signal) (dt_chunk_target : Q)
         (theta0 : list Q) (freq : list float),
    (0 < dt_chunk_target)%Q ->
    Signal.theta r = Some theta0 ->
    Signal.fit dt_chunk_target r = Ok r' ->
    Signal.fit_freq r' = Some freq ->
    Z.of_nat (length freq)
    = py_round (inject_Z (Z.of_nat (length theta0))
                / inject_Z (py_round (dt_chunk_target / Signal.dt r))).

(** ** An instance of the library over the rationals

    A complex number is a pair of rationals, its modulus is replaced by the
    sum of the absolute values of the two parts, the transforms keep the
    samples in the real part, and the taper is flat.  The instance satisfies
    every law of [NumLib]; it serves to run the stages on concrete
    inputs. *)

Module RationalLib.

Definition cplx : Type := (Q * Q)%type.

Definition np_fft (l : list Q) : list cplx := map (fun x => (x, 0%Q)) l.
Definition np_ifft (l : list cplx) : list cplx := l.
Definition cscale (q : Q) (c : cplx) : cplx := ((q * fst c)%Q, (q * snd c)%Q).
Definition cabs (c : cplx) : Q := (Qabs (fst c) + Qabs (snd c))%Q.
Definition np_angle (c : cplx) : Q := 0%Q.
Definition np_unwrap (l : list Q) : list Q := l.
Definition np_pi : Q := 355 # 113.
Definition blackman (M : Z) : list Q := repeat 0%Q (Z.to_nat M).

Lemma np_fft_length : forall l, length (np_fft l) = length l.
Proof. intros l. unfold np_fft. apply length_map. Qed.

Lemma np_ifft_length : forall l, length (np_ifft l) = length l.
Proof. reflexivity. Qed.

Lemma np_unwrap_length : forall l, length (np_unwrap l) = length l.
Proof. reflexivity. Qed.

Lemma blackman_length : forall M, length (blackman M) = Z.to_nat M.
Proof. intros M. unfold blackman. apply repeat_length. Qed.

Lemma np_pi_pos : (0 < np_pi)%Q.
Proof. reflexivity. Qed.

Lemma cabs_nonneg : forall c, (0 <= cabs c)%Q.
Proof.
  intros [x y]. unfold cabs. simpl.
  pose proof (Qabs_nonneg x). pose proof (Qabs_nonneg y). lra.
Qed.

Lemma cabs_cscale : forall q c, (cabs (cscale q c) == Qabs q * cabs c)%Q.
Proof.
  intros q [x y]. unfold cabs, cscale. cbn [fst snd].
  rewrite !Qabs_Qmult. ring.
Qed.

End RationalLib.

#[export] Instance rational_lib : NumLib := {|
  cplx := RationalLib.cplx;
  np_fft := RationalLib.np_fft;
  np_ifft := RationalLib.np_ifft;
  cscale := RationalLib.cscale;
  cabs := RationalLib.cabs;
  np_angle := RationalLib.np_angle;
  np_unwrap := RationalLib.np_unwrap;
  np_pi := RationalLib.np_pi;
  blackman := RationalLib.blackman;
  np_fft_length := RationalLib.np_fft_length;
  np_ifft_length := RationalLib.np_ifft_length;
  np_unwrap_length := RationalLib.np_unwrap_length;
  blackman_length := RationalLib.blackman_length;
  np_pi_pos := RationalLib.np_pi_pos;
  cabs_nonneg := RationalLib.cabs_nonneg;
  cabs_cscale := RationalLib.cabs_cscale
|}.

(** ** Records for concrete runs *)

Module Demo.

Local Open Scope py_scope.
Local Open Scope string_scope.

(** The record of an outcome that is known to be a return. *)
Definition run (o : outcome (@Signal.signal rational_lib)) : Signal.signal :=
  match o with
  | Ok r => r
  | _ => Signal.init_signal [] "none" "none" 0
  end.

(** The value of a key that is known to be present. *)
Definition value {A : Type} (d : A) (o : option A) : A :=
  match o with
  | Some v => v
  | None => d
  end.

(** The right-hand spectrum of an outcome that is known to be a return. *)
Definition run_value (o : outcome (list Q * list (@cplx rational_lib)))
  : list Q * list (@cplx rational_lib) :=
  match o with
  | Ok p => p
  | _ => ([], [])
  end.

(** The samples [1, 2, ..., n]. *)
Definition ramp (n : Z) : list Q := map inject_Z (arange 1 (n + 1)).

Definition constructed (s0 : list Q) (dt0 : Q) : Signal.signal :=
  run (Signal.__init__ s0 "x" "nm" dt0).

(** Construction and a window without taper. *)
Definition windowed (s0 : list Q) (dt0 : Q) : Signal.signal :=
  run (Signal.window 0 (constructed s0 dt0)).

Definition transformed (s0 : list Q) (dt0 : Q) : Signal.signal :=
  run (Signal.fft (windowed s0 dt0)).

(** The stages up to the inverse transform, with a filter of order 2. *)
Definition to_analytic (bw0 : Q) : list stage :=
  [Window 0; Fft; Filter bw0 2; Ifft].

Definition analytic (s0 : list Q) (dt0 bw0 : Q) : Signal.signal :=
  run (run_stages (to_analytic bw0) (constructed s0 dt0)).

End Demo.

(** * Properties *)

(** Inversion of a sequence of calls that returned. *)
Ltac inv_bind H :=
  match type of H with
  | bind ?c _ = Ok _ =>
      let E := fresh "E" in
      destruct c eqn:E; cbn [bind] in H; [|discriminate H|discriminate H]
  end.

Ltac inv_ok H :=
  match type of H with
  | Ok _ = Ok _ => injection H as H; subst
  end.

(** ** Indexing and slicing *)

Lemma arange_length (a b : Z) : length (arange a b) = Z.to_nat (b - a).
Proof. unfold arange. rewrite length_map, length_seq. reflexivity. Qed.

Lemma arange_empty (a b : Z) : (b <= a)%Z -> arange a b = [].
Proof.
  intros Hle. unfold arange.
  replace (Z.to_nat (b - a)) with 0%nat by lia. reflexivity.
Qed.

Lemma arange_cons (a b : Z) :
  (a < b)%Z -> arange a b = a :: arange (a + 1) b.
Proof.
  intros Hlt. unfold arange.
  replace (Z.to_nat (b - a)) with (S (Z.to_nat (b - (a + 1)))) by lia.
  cbn [seq map]. f_equal; [lia|].
  rewrite <- seq_shift, map_map.
  apply map_ext. intros k. lia.
Qed.

Lemma nth_arange (a b : Z) (k : nat) :
  (k < Z.to_nat (b - a))%nat -> nth k (arange a b) 0%Z = (a + Z.of_nat k)%Z.
Proof.
  intros Hk. unfold arange.
  set (g := fun j : nat => (a + Z.of_nat j)%Z).
  rewrite (nth_indep _ 0%Z (g 0%nat))
    by (rewrite length_map, length_seq; exact Hk).
  rewrite map_nth, seq_nth by exact Hk. reflexivity.
Qed.

Lemma np_getitem_nth {A : Type} (l : list A) (i : Z) (v : A) :
  (0 <= i)%Z -> nth_error l (Z.to_nat i) = Some v -> np_getitem l i = Ok v.
Proof.
  intros Hi Hnth. unfold np_getitem.
  assert (Hlt : (Z.to_nat i < length l)%nat).
  { apply nth_error_Some. rewrite Hnth. discriminate. }
  destruct (Z.ltb_spec i 0); [lia|].
  destruct (Z.ltb_spec i 0); [lia|].
  destruct (Z.leb_spec (Z.of_nat (length l)) i); [lia|].
  cbn [orb]. rewrite Hnth. reflexivity.
Qed.

Lemma skipn_nth_cons {A : Type} (l : list A) (k : nat) (v : A) :
  nth_error l k = Some v -> skipn k l = v :: skipn (S k) l.
Proof.
  revert l. induction k as [|k IH]; intros [|x l] Hnth; try discriminate.
  - cbn in Hnth. injection Hnth as ->. reflexivity.
  - cbn in Hnth. cbn [skipn]. apply IH. exact Hnth.
Qed.

(** Indexing with a range inside the array is the slice of that range. *)
Lemma np_take_arange {A : Type} (l : list A) (a b : Z) :
  (0 <= a)%Z -> (a <= b)%Z -> (b <= Z.of_nat (length l))%Z ->
  np_take l (arange a b) = Ok (firstn (Z.to_nat (b - a)) (skipn (Z.to_nat a) l)).
Proof.
  intros Ha Hab Hb.
  remember (Z.to_nat (b - a)) as m eqn:Hm.
  revert a Ha Hab Hm. induction m as [|m IH]; intros a Ha Hab Hm.
  - rewrite arange_empty by lia. reflexivity.
  - rewrite arange_cons by lia. cbn [np_take].
    destruct (nth_error l (Z.to_nat a)) as [v|] eqn:Hnth.
    2:{ apply nth_error_None in Hnth. lia. }
    rewrite (np_getitem_nth l Ha Hnth). cbn [bind].
    rewrite (IH (a + 1)%Z) by lia. cbn [bind].
    rewrite (skipn_nth_cons l _ Hnth). cbn [firstn].
    replace (Z.to_nat (a + 1)) with (S (Z.to_nat a)) by lia. reflexivity.
Qed.

Lemma length_firstn_skipn {A : Type} (l : list A) (k m : nat) :
  (k + m <= length l)%nat -> length (firstn m (skipn k l)) = m.
Proof.
  intros Hle. rewrite length_firstn, length_skipn. lia.
Qed.

(** ** Binaration *)

Lemma log2_of_nat (n : nat) :
  (1 <= n)%nat -> Z.log2 (Z.of_nat n) = Z.of_nat (Nat.log2 n).
Proof.
  intros Hn. apply Z.log2_unique; [lia|].
  destruct (Nat.log2_spec n) as [Hlo Hhi]; [lia|].
  rewrite <- (Nat2Z.inj_pow 2), <- (Nat2Z.inj_succ (Nat.log2 n)).
  rewrite <- (Nat2Z.inj_pow 2). lia.
Qed.

Lemma binarate_n2_nat (n : nat) :
  (1 <= n)%nat -> Signal.binarate_n2 (Z.of_nat n) = Z.of_nat (2 ^ Nat.log2 n).
Proof.
  intros Hn. unfold Signal.binarate_n2.
  rewrite Nat2Z.inj_pow, log2_of_nat by exact Hn. reflexivity.
Qed.

Lemma pow2_log2_le (n : nat) : (1 <= n)%nat -> (2 ^ Nat.log2 n <= n)%nat.
Proof. intros Hn. apply Nat.log2_spec. lia. Qed.

Lemma binarate_range_nat (mode : string) (n : nat) :
  (1 <= n)%nat ->
  mode = "start"%string \/ mode = "middle"%string \/ mode = "end"%string ->
  let n2 := (2 ^ Nat.log2 n)%nat in
  Signal.binarate_range mode (Z.of_nat n)
  = (Z.of_nat (kept_from mode n n2), Z.of_nat (kept_from mode n n2 + n2)).
Proof.
  intros Hn Hmode n2.
  pose proof (pow2_log2_le Hn) as Hle. fold n2 in Hle.
  unfold Signal.binarate_range. rewrite binarate_n2_nat by exact Hn. fold n2.
  destruct Hmode as [-> | [-> | ->]]; unfold kept_from; cbn [String.eqb Ascii.eqb Bool.eqb].
  - f_equal.
  - rewrite Nat2Z.inj_add, Nat2Z.inj_div, Nat2Z.inj_sub by lia. reflexivity.
  - f_equal; lia.
Qed.

Section BinarateProps.

Context `{NumLib}.

(** C4. For a signal of length [n >= 1] whose time array has the same
    length, and for each of the modes start, middle and end, [binarate]
    returns a record whose samples and time are the [n2] entries of the
    old arrays from index [kept_from mode n n2] on, where
    [n2 = 2^floor(log2 n)] (so [n2 <= n < 2*n2]): index [0] for start,
    [n - n2] for end, [floor((n - n2)/2)] for middle.  Both new arrays
    have length [n2]; when [n] is a power of two they are the old arrays;
    and [s_original], [t_original] hold the arrays as they were before
    the call. *)
Theorem binarate_truncates_to_power_of_two (mode : string) (r : Signal.signal) :
  let n := length (Signal.s r) in
  let n2 := (2 ^ Nat.log2 n)%nat in
  (1 <= n)%nat ->
  length (Signal.t r) = n ->
  mode = "start"%string \/ mode = "middle"%string \/ mode = "end"%string ->
  exists r',
    Signal.binarate mode r = Ok r'
    /\ (n2 <= n < 2 * n2)%nat
    /\ kept_from "start" n n2 = 0%nat
    /\ kept_from "end" n n2 = (n - n2)%nat
    /\ kept_from "middle" n n2 = ((n - n2) / 2)%nat
    /\ Signal.s r' = firstn n2 (skipn (kept_from mode n n2) (Signal.s r))
    /\ Signal.t r' = firstn n2 (skipn (kept_from mode n n2) (Signal.t r))
    /\ length (Signal.s r') = n2
    /\ length (Signal.t r') = n2
    /\ ((exists k, n = (2 ^ k)%nat) ->
        Signal.s r' = Signal.s r /\ Signal.t r' = Signal.t r)
    /\ Signal.s_original r' = Some (Signal.s r)
    /\ Signal.t_original r' = Some (Signal.t r).
Proof.
  intros n n2 Hn Ht Hmode.
  pose proof (pow2_log2_le Hn) as Hle. fold n2 in Hle.
  assert (Hhi : (n < 2 * n2)%nat).
  { destruct (Nat.log2_spec n) as [_ Hhi]; [lia|].
    rewrite Nat.pow_succ_r' in Hhi. exact Hhi. }
  assert (Hk : (kept_from mode n n2 + n2 <= n)%nat).
  { destruct Hmode as [-> | [-> | ->]]; unfold kept_from;
      cbn [String.eqb Ascii.eqb Bool.eqb]; try lia.
    assert ((n - n2) / 2 <= n - n2)%nat by (apply Nat.Div0.div_le_upper_bound; lia).
    lia. }
  unfold Signal.binarate. fold n.
  destruct (Z.leb_spec (Z.of_nat n) 0) as [Hz|Hz]; [lia|].
  rewrite (binarate_range_nat Hn Hmode). fold n2.
  set (k := kept_from mode n n2) in *.
  rewrite (np_take_arange (Signal.s r)) by (fold n; lia).
  rewrite (np_take_arange (Signal.t r)) by (try rewrite Ht; lia).
  cbn [bind].
  replace (Z.to_nat (Z.of_nat (k + n2) - Z.of_nat k)) with n2 by lia.
  rewrite Nat2Z.id.
  eexists. split; [reflexivity|]. cbn [Signal.s Signal.t Signal.s_original Signal.t_original].
  split; [lia|]. do 3 (split; [reflexivity|]).
  do 2 (split; [reflexivity|]).
  split; [apply length_firstn_skipn; fold n; lia|].
  split; [apply length_firstn_skipn; rewrite Ht; lia|].
  split; [|split; reflexivity].
  intros [j Hj].
  assert (Hn2 : n2 = n).
  { unfold n2. rewrite Hj, Nat.log2_pow2 by lia. reflexivity. }
  assert (Hk0 : k = 0%nat) by lia.
  rewrite Hk0, Hn2. cbn [skipn]. split.
  - apply firstn_all.
  - rewrite <- Ht. apply firstn_all.
Qed.

End BinarateProps.

(** ** Ingest *)

Section IngestProps.

Context `{NumLib}.

(** C7 (as the code has it). For every construction input, with no
    condition on [dt] or on the samples, [__init__] returns a record: it
    holds the samples and [dt] as given, and its time array has one entry
    per sample, entry [k] being [dt * k]. *)
Theorem init_builds_time_axis (s0 : list Q) (s_name0 s_unit0 : string) (dt0 : Q) :
  exists r,
    Signal.__init__ s0 s_name0 s_unit0 dt0 = Ok r
    /\ Signal.s r = s0
    /\ Signal.dt r = dt0
    /\ length (Signal.t r) = length s0
    /\ forall k, (k < length s0)%nat ->
                 nth k (Signal.t r) 0%Q = (dt0 * inject_Z (Z.of_nat k))%Q.
Proof.
  eexists. split; [reflexivity|].
  cbn [Signal.init_signal Signal.s Signal.dt Signal.t].
  split; [reflexivity|]. split; [reflexivity|]. split.
  - rewrite length_map, arange_length. lia.
  - intros k Hk.
    set (g := fun j : Z => (dt0 * inject_Z j)%Q).
    rewrite (nth_indep _ 0%Q (g 0%Z))
      by (rewrite length_map, arange_length; lia).
    rewrite map_nth, nth_arange by lia. reflexivity.
Qed.

End IngestProps.

(** ** Trimming *)

Lemma drop_both_ends_decompose {A : Type} (k : nat) (l : list A) :
  (2 * k <= length l)%nat ->
  l = firstn k l ++ drop_both_ends k l ++ skipn (length l - k) l
  /\ length (firstn k l) = k
  /\ length (skipn (length l - k) l) = k
  /\ length (drop_both_ends k l) = (length l - 2 * k)%nat.
Proof.
  intros Hk. unfold drop_both_ends. repeat split.
  - rewrite <- (firstn_skipn k l) at 1. f_equal.
    rewrite <- (firstn_skipn (length l - 2 * k) (skipn k l)) at 1. f_equal.
    rewrite skipn_skipn. f_equal. lia.
  - rewrite length_firstn. lia.
  - rewrite length_skipn. lia.
  - rewrite length_firstn, length_skipn. lia.
Qed.

Lemma py_slice_both_ends {A : Type} (l : list A) (id : Z) :
  (1 <= id)%Z -> (2 * id <= Z.of_nat (length l))%Z ->
  py_slice l (Some id) (Some (- id)%Z) = drop_both_ends (Z.to_nat id) l.
Proof.
  intros H1 H2. unfold py_slice, slice_index, drop_both_ends.
  destruct (Z.ltb_spec id 0); [lia|].
  destruct (Z.ltb_spec (- id) 0); [|lia].
  f_equal; [|f_equal]; lia.
Qed.

(** With [id = 0] the slice [x[id:-id]] is [x[0:0]]. *)
Lemma py_slice_zero {A : Type} (l : list A) :
  py_slice l (Some 0%Z) (Some (- 0)%Z) = [].
Proof.
  unfold py_slice, slice_index. cbn [Z.opp Z.ltb Z.compare].
  replace (Z.to_nat _) with 0%nat by lia. reflexivity.
Qed.

Lemma py_slice_length_le {A : Type} (l : list A) (a b : option Z) :
  (length (py_slice l a b) <= length l)%nat.
Proof.
  unfold py_slice. rewrite length_firstn, length_skipn. lia.
Qed.

Lemma py_int_nonneg (q : Q) : (0 <= q)%Q -> py_int q = Qfloor q.
Proof.
  destruct q as [n d]. unfold Qle, py_int, Qfloor. cbn [Qnum Qden].
  intros Hn. apply Z.quot_div_nonneg; lia.
Qed.

Lemma Qfloor_zero_iff (q : Q) : Qfloor q = 0%Z <-> (0 <= q < 1)%Q.
Proof.
  pose proof (Qfloor_le q) as Hlo. pose proof (Qlt_floor q) as Hhi.
  split.
  - intros Hz. rewrite Hz in Hlo, Hhi. split; [exact Hlo | exact Hhi].
  - intros [H0 H1].
    assert (Ha : (Qfloor q < 1)%Z).
    { rewrite Zlt_Qlt. eapply Qle_lt_trans; [exact Hlo | exact H1]. }
    assert (Hb : (0 < Qfloor q + 1)%Z).
    { rewrite Zlt_Qlt. eapply Qle_lt_trans; [exact H0 | exact Hhi]. }
    lia.
Qed.

(** [int(td/dt)] is zero exactly when [td < dt], for [td >= 0], [dt > 0]. *)
Lemma py_int_quotient_zero (td0 dt0 : Q) :
  (0 <= td0)%Q -> (0 < dt0)%Q ->
  (py_int (td0 / dt0) = 0%Z <-> (td0 < dt0)%Q).
Proof.
  intros Htd Hdt.
  assert (Hq : (0 <= td0 / dt0)%Q).
  { apply Qle_shift_div_l; [exact Hdt|]. lra. }
  rewrite (py_int_nonneg Hq), Qfloor_zero_iff.
  split.
  - intros [_ H1].
    assert (H2 : (td0 / dt0 * dt0 < 1 * dt0)%Q) by (apply Qmult_lt_compat_r; assumption).
    rewrite Qmult_comm, Qmult_div_r in H2 by lra. lra.
  - intros Hlt. split; [exact Hq|].
    apply Qlt_shift_div_r; [exact Hdt | lra].
Qed.

Lemma py_fdiv_ok (x y : Q) : ~ (y == 0)%Q -> py_fdiv x y = Ok (x / y)%Q.
Proof.
  intros Hy. unfold py_fdiv.
  destruct (Qeq_bool y 0) eqn:E; [|reflexivity].
  apply Qeq_bool_eq in E. contradiction.
Qed.

Section TrimProps.

Context `{NumLib}.

Variable r : Signal.signal.
Variables (td0 : Q) (z0 : list cplx) (theta0 a0 : list Q).
Hypothesis Htd : Signal.td r = Some td0.
Hypothesis Hz : Signal.z r = Some z0.
Hypothesis Htheta : Signal.theta r = Some theta0.
Hypothesis Ha : Signal.a r = Some a0.
Hypothesis Hdt : ~ (Signal.dt r == 0)%Q.

Lemma trim_id_ok : Signal.trim_id r = Ok (py_int (td0 / Signal.dt r)).
Proof.
  unfold Signal.trim_id. rewrite Htd. cbn [getkey bind].
  rewrite (py_fdiv_ok _ Hdt). reflexivity.
Qed.


(** C10. When [int(td/dt)] is zero, [trim] does not keep the arrays as
    they are: it returns a record in which [z], [theta], [a] and [t] are
    all empty, since [x[0:-0]] is [x[0:0]].  For [td >= 0] and [dt > 0]
    the condition says that [td < dt]. *)
Theorem trim_zero_index_empties :
  py_int (td0 / Signal.dt r) = 0%Z ->
  exists r',
    Signal.trim r = Ok r'
    /\ Signal.z r' = Some []
    /\ Signal.theta r' = Some []
    /\ Signal.a r' = Some []
    /\ Signal.t r' = []
    /\ ((0 <= td0)%Q -> (0 < Signal.dt r)%Q -> (td0 < Signal.dt r)%Q).
Proof.
  intros Hid.
  unfold Signal.trim. rewrite trim_id_ok, Hid.
  rewrite Hz, Htheta, Ha. cbn [getkey bind].
  rewrite !py_slice_zero.
  eexists. split; [reflexivity|].
  cbn [Signal.z Signal.theta Signal.a Signal.t].
  repeat split.
  intros H0 Hpos. apply (py_int_quotient_zero H0 Hpos). exact Hid.
Qed.

End TrimProps.

(** ** The pipeline *)

Lemma np_take_length {A : Type} (l : list A) (idx : list Z) (l' : list A) :
  np_take l idx = Ok l' -> length l' = length idx.
Proof.
  revert l'. induction idx as [|i idx IH]; intros l' Hok.
  - cbn in Hok. inv_ok Hok. reflexivity.
  - cbn [np_take] in Hok. inv_bind Hok. inv_bind Hok. inv_ok Hok.
    cbn [length]. f_equal. apply IH. reflexivity.
Qed.

Lemma np_take_in {A : Type} (l : list A) (idx : list Z) (l' : list A) (i : Z) :
  np_take l idx = Ok l' -> In i idx -> exists v, np_getitem l i = Ok v.
Proof.
  revert l'. induction idx as [|j idx IH]; intros l' Hok Hin.
  - destruct Hin.
  - cbn [np_take] in Hok. inv_bind Hok. inv_bind Hok.
    destruct Hin as [-> | Hin].
    + eexists. exact E.
    + eapply IH; [reflexivity | exact Hin].
Qed.

Lemma np_getitem_bound {A : Type} (l : list A) (i : Z) (v : A) :
  np_getitem l i = Ok v -> (0 <= i)%Z -> (i < Z.of_nat (length l))%Z.
Proof.
  unfold np_getitem. intros Hok Hi.
  destruct (Z.ltb_spec i 0); [lia|].
  destruct (Z.ltb_spec i 0); [lia|].
  destruct (Z.leb_spec (Z.of_nat (length l)) i); [discriminate Hok | lia].
Qed.

(** A range that starts at a valid index and indexes without error is no
    longer than the array. *)
Lemma np_take_arange_bound {A : Type} (l : list A) (a b : Z) (l' : list A) :
  np_take l (arange a b) = Ok l' -> (0 <= a)%Z ->
  (length l' <= length l)%nat.
Proof.
  intros Hok Ha.
  rewrite (@np_take_length _ l (arange a b) l' Hok), arange_length.
  destruct (Z.le_gt_cases b a) as [Hle|Hlt]; [lia|].
  assert (Hin : In (b - 1)%Z (arange a b)).
  { unfold arange. apply in_map_iff. exists (Z.to_nat (b - 1 - a)).
    split; [lia|]. apply in_seq. lia. }
  destruct (@np_take_in _ l (arange a b) l' (b - 1)%Z Hok Hin) as [v Hv].
  apply np_getitem_bound in Hv; lia.
Qed.

Lemma binarate_range_width (mode : string) (n : Z) :
  (0 < n)%Z ->
  let '(n_start, n_stop) := Signal.binarate_range mode n in
  (0 <= n_start)%Z /\ (n_stop - n_start <= n)%Z.
Proof.
  intros Hn. unfold Signal.binarate_range, Signal.binarate_n2.
  pose proof (Z.log2_spec n Hn) as [Hlo _].
  assert (0 <= (n - 2 ^ Z.log2 n) / 2)%Z by (apply Z.div_pos; lia).
  destruct (mode =? "middle")%string; [lia|].
  destruct (mode =? "start")%string; [lia|].
  destruct (mode =? "end")%string; lia.
Qed.

Section PipelineProps.

Context `{NumLib}.

Lemma binarate_lengths (mode : string) (r r' : Signal.signal) :
  Signal.binarate mode r = Ok r' ->
  length (Signal.s r') = length (Signal.t r')
  /\ (length (Signal.s r') <= length (Signal.s r))%nat
  /\ (length (Signal.t r') <= length (Signal.t r))%nat.
Proof.
  unfold Signal.binarate. intros Hok.
  destruct (Z.leb_spec (Z.of_nat (length (Signal.s r))) 0) as [Hn|Hn];
    [discriminate Hok|].
  pose proof (binarate_range_width mode Hn) as Hw.
  destruct (Signal.binarate_range mode (Z.of_nat (length (Signal.s r))))
    as [n_start n_stop].
  destruct Hw as [Hstart Hw].
  inv_bind Hok. inv_bind Hok. inv_ok Hok.
  cbn [Signal.s Signal.t].
  pose proof (@np_take_arange_bound _ _ _ _ _ E0 Hstart) as Hbt.
  apply np_take_length in E, E0. rewrite arange_length in E, E0.
  repeat split; lia.
Qed.

Lemma trim_lengths (r r' : Signal.signal) :
  Signal.trim r = Ok r' ->
  Signal.s r' = Signal.s r
  /\ (length (Signal.t r') <= length (Signal.t r))%nat.
Proof.
  unfold Signal.trim. intros Hok.
  repeat inv_bind Hok. inv_ok Hok. cbn [Signal.s Signal.t].
  split; [reflexivity | apply py_slice_length_le].
Qed.

(** The stages other than [binarate] and [trim] leave [s] and [t] as they
    are. *)
Lemma other_stages_keep_s_and_t (st : stage) (r r' : Signal.signal) :
  run_stage st r = Ok r' ->
  (forall mode, st <> Binarate mode) ->
  st <> Trim ->
  Signal.s r' = Signal.s r /\ Signal.t r' = Signal.t r.
Proof.
  intros Hok Hb Ht.
  destruct st; cbn [run_stage] in Hok.
  - exfalso. apply (Hb mode). reflexivity.
  - unfold Signal.window in Hok. repeat inv_bind Hok. inv_ok Hok.
    split; reflexivity.
  - unfold Signal.fft in Hok. inv_bind Hok.
    destruct a as [|x sw0]; [discriminate Hok|].
    repeat inv_bind Hok. inv_ok Hok. split; reflexivity.
  - unfold Signal.filter in Hok. repeat inv_bind Hok. inv_ok Hok.
    split; reflexivity.
  - unfold Signal.ifft in Hok. inv_bind Hok.
    destruct a as [|x l]; [discriminate Hok|].
    inv_ok Hok. split; reflexivity.
  - exfalso. apply Ht. reflexivity.
  - unfold Signal.fit in Hok. repeat inv_bind Hok. inv_ok Hok.
    split; reflexivity.
Qed.

End PipelineProps.

Section PipelineInvariant.

Context `{NumLib}.

Lemma run_stage_lengths (st : stage) (r r' : Signal.signal) :
  run_stage st r = Ok r' ->
  (length (Signal.s r') <= length (Signal.s r))%nat
  /\ (length (Signal.t r') <= length (Signal.t r))%nat
  /\ ((forall mode, st <> Binarate mode) -> Signal.s r' = Signal.s r)
  /\ ((forall mode, st <> Binarate mode) -> st <> Trim ->
      Signal.t r' = Signal.t r)
  /\ (st <> Trim -> length (Signal.s r) = length (Signal.t r) ->
      length (Signal.s r') = length (Signal.t r')).
Proof.
  intros Hok.
  destruct st as [mode|tw| |bw0 order0| | |dtc] eqn:Est.
  1:{ cbn [run_stage] in Hok.
      apply binarate_lengths in Hok as (Heq & Hle & Hlt).
      repeat split; try lia.
      - intros Hb. exfalso. apply (Hb mode). reflexivity.
      - intros Hb. exfalso. apply (Hb mode). reflexivity. }
  5:{ cbn [run_stage] in Hok. apply trim_lengths in Hok as [Hs Hle].
      rewrite Hs. repeat split; try lia.
      - intros _ Ht. exfalso. apply Ht. reflexivity.
      - intros Ht. exfalso. apply Ht. reflexivity. }
  all: rewrite <- Est in Hok;
    assert (Hb : forall mode, st <> Binarate mode)
      by (intros mode; rewrite Est; discriminate);
    assert (Ht : st <> Trim) by (rewrite Est; discriminate);
    destruct (@other_stages_keep_s_and_t _ st r r' Hok Hb Ht) as [Hs Htt];
    rewrite Hs, Htt; repeat split; auto.
Qed.

Lemma run_stages_lengths (sts : list stage) (r r' : Signal.signal) :
  run_stages sts r = Ok r' ->
  (~ In Trim sts -> length (Signal.s r) = length (Signal.t r) ->
   length (Signal.s r') = length (Signal.t r'))
  /\ (length (Signal.s r') <= length (Signal.s r))%nat
  /\ (length (Signal.t r') <= length (Signal.t r))%nat
  /\ ((forall mode, ~ In (Binarate mode) sts) -> Signal.s r' = Signal.s r)
  /\ ((forall mode, ~ In (Binarate mode) sts) -> ~ In Trim sts ->
      Signal.t r' = Signal.t r).
Proof.
  revert r. induction sts as [|st sts IH]; intros r Hok.
  - cbn in Hok. inv_ok Hok. repeat split; auto.
  - cbn [run_stages] in Hok. inv_bind Hok.
    destruct (@run_stage_lengths st r _ E) as (Hs & Ht & Hks & Hkt & Heq).
    destruct (IH _ Hok) as (IHeq & IHs & IHt & IHks & IHkt).
    repeat split.
    + intros Hnt Hlen. apply IHeq.
      * intros Hin. apply Hnt. right. exact Hin.
      * apply Heq; [|exact Hlen].
        intros ->. apply Hnt. left. reflexivity.
    + lia.
    + lia.
    + intros Hnb. rewrite IHks, Hks; [reflexivity| |].
      * intros mode ->. apply (Hnb mode). left. reflexivity.
      * intros mode Hin. apply (Hnb mode). right. exact Hin.
    + intros Hnb Hnt. rewrite IHkt, Hkt; [reflexivity| | | |].
      * intros mode ->. apply (Hnb mode). left. reflexivity.
      * intros ->. apply Hnt. left. reflexivity.
      * intros mode Hin. apply (Hnb mode). right. exact Hin.
      * intros Hin. apply Hnt. right. exact Hin.
Qed.


End PipelineInvariant.

(** ** Windowing *)

Lemma py_slice_prefix {A : Type} (l : list A) (k : Z) :
  (0 <= k)%Z -> (k <= Z.of_nat (length l))%Z ->
  py_slice l (Some 0%Z) (Some k) = firstn (Z.to_nat k) l.
Proof.
  intros H0 Hk. unfold py_slice, slice_index.
  destruct (Z.ltb_spec k 0); [lia|]. cbn [Z.ltb Z.compare].
  replace (Z.to_nat (Z.max 0 (Z.min (Z.of_nat (length l)) 0))) with 0%nat by lia.
  cbn [skipn]. f_equal. lia.
Qed.

(** The second half [x[-k:]] of an array of [2k] entries. *)
Lemma py_slice_second_half {A : Type} (l : list A) (k : Z) :
  (0 <= k)%Z -> Z.of_nat (length l) = (2 * k)%Z ->
  py_slice l (Some (- k)%Z) None = skipn (Z.to_nat k) l.
Proof.
  intros H0 Hlen. unfold py_slice, slice_index.
  destruct (Z.ltb_spec (- k) 0).
  - rewrite firstn_all2; [f_equal; lia|]. rewrite length_skipn. lia.
  - assert (k = 0%Z) by lia. subst k.
    destruct l; [reflexivity | cbn [length] in Hlen; lia].
Qed.

Lemma np_mul_same_length {A B C : Type} (op : A -> B -> C)
      (x : list A) (y : list B) :
  length x = length y ->
  np_mul op x y = Ok (map (fun p => op (fst p) (snd p)) (combine x y)).
Proof.
  intros Hlen. unfold np_mul. rewrite Hlen, Nat.eqb_refl. reflexivity.
Qed.

Section WindowProps.

Context `{NumLib}.


End WindowProps.

(** ** The frequency axis and the right-hand filter *)

Lemma arange_app (a b c : Z) :
  (a <= b)%Z -> (b <= c)%Z -> arange a b ++ arange b c = arange a c.
Proof.
  intros Hab Hbc.
  remember (Z.to_nat (b - a)) as m eqn:Hm.
  revert a Hab Hm. induction m as [|m IH]; intros a Hab Hm.
  - assert (a = b) by lia. subst a.
    rewrite (@arange_empty b b) by lia. reflexivity.
  - rewrite (@arange_cons a b), (@arange_cons a c) by lia.
    cbn [app]. f_equal. apply IH; lia.
Qed.

Lemma fftshift_map {A B : Type} (g : A -> B) (l : list A) :
  fftshift (map g l) = map g (fftshift l).
Proof.
  unfold fftshift. rewrite length_map, map_app, skipn_map, firstn_map.
  reflexivity.
Qed.

(** Rolling the two halves [0 .. m-1] and [-m .. -1] gives [-m .. m-1]. *)
Lemma fftshift_halves (m : Z) :
  (0 <= m)%Z ->
  fftshift (arange 0 m ++ arange (- m) 0) = arange (- m) m.
Proof.
  intros Hm. unfold fftshift.
  assert (H1 : length (arange 0 m) = Z.to_nat m)
    by (rewrite arange_length; f_equal; lia).
  assert (H2 : length (arange (- m) 0) = Z.to_nat m)
    by (rewrite arange_length; f_equal; lia).
  rewrite length_app, H1, H2.
  replace (Z.to_nat m + Z.to_nat m - Nat.div2 (Z.to_nat m + Z.to_nat m))%nat
    with (Z.to_nat m).
  2:{ replace (Z.to_nat m + Z.to_nat m)%nat with (2 * Z.to_nat m)%nat by lia.
      rewrite Nat.div2_double. lia. }
  rewrite skipn_app, firstn_app, H1, Nat.sub_diag.
  rewrite (skipn_all2 (arange 0 m)) by lia.
  rewrite (firstn_all2 (arange 0 m)) by lia.
  cbn [skipn firstn app]. rewrite app_nil_r.
  apply arange_app; lia.
Qed.

(** The centred axis of an even number [2*m] of points with spacing
    [1/(2*m*d)]. *)
Lemma fftshift_fftfreq_even (m : Z) (d : Q) :
  (1 <= m)%Z -> ~ (d == 0)%Q ->
  exists freq,
    fftfreq (2 * m) d = Ok freq
    /\ fftshift freq
       = map (fun k => (inject_Z k * (1 / (inject_Z (2 * m) * d)))%Q)
             (arange (- m) m).
Proof.
  intros Hm Hd. unfold fftfreq.
  rewrite py_fdiv_ok.
  2:{ intros Hz. apply Qmult_integral in Hz. destruct Hz as [Hz|Hz]; [|auto].
      revert Hz. change 0%Q with (inject_Z 0). rewrite inject_Z_injective. lia. }
  cbn [bind]. eexists. split; [reflexivity|].
  rewrite fftshift_map. f_equal.
  replace ((2 * m - 1) / 2 + 1)%Z with m.
  2:{ replace (2 * m - 1)%Z with (1 + (m - 1) * 2)%Z by lia.
      rewrite Z.div_add by lia. cbn. lia. }
  replace (2 * m / 2)%Z with m.
  2:{ rewrite Z.mul_comm, Z.div_mul by lia. reflexivity. }
  apply fftshift_halves. lia.
Qed.

(** One entry of the right-hand filter, at the axis value [k * val] of a
    centred axis whose spacing [df'] is [val > 0]. *)
Lemma rh_entry (k : Z) (val df' : Q) :
  (0 < val)%Q -> (df' == val)%Q ->
  let x := (inject_Z k * val)%Q in
  let xs := (x - df' / 2)%Q in
  ~ (Qabs xs == 0)%Q
  /\ exists q,
       np_fdiv (Qabs xs + xs) (Qabs xs) = Some q
       /\ ((x <= 0)%Q -> (q == 0)%Q)
       /\ ((0 < x)%Q -> (q == 2)%Q).
Proof.
  intros Hval Hdf x xs.
  assert (Hxs : (xs == (inject_Z k - (1 # 2)) * val)%Q).
  { unfold xs, x. rewrite Hdf. field. }
  destruct (Z.le_gt_cases k 0) as [Hk|Hk].
  - assert (Hc : (inject_Z k <= 0)%Q).
    { change 0%Q with (inject_Z 0). rewrite <- Zle_Qle. exact Hk. }
    assert (Hneg : (xs < 0)%Q) by (rewrite Hxs; nra).
    assert (Habs : (Qabs xs == - xs)%Q) by (apply Qabs_neg; lra).
    assert (Hnz : ~ (Qabs xs == 0)%Q) by (rewrite Habs; lra).
    split; [exact Hnz|].
    unfold np_fdiv.
    destruct (Qeq_bool (Qabs xs) 0) eqn:E;
      [apply Qeq_bool_eq in E; contradiction|].
    eexists. split; [reflexivity|]. split.
    + intros _. rewrite Habs. field. lra.
    + intros Hpos. exfalso. unfold x in Hpos. nra.
  - assert (Hc : (1 <= inject_Z k)%Q).
    { change 1%Q with (inject_Z 1). rewrite <- Zle_Qle. lia. }
    assert (Hpos : (0 < xs)%Q) by (rewrite Hxs; nra).
    assert (Habs : (Qabs xs == xs)%Q) by (apply Qabs_pos; lra).
    assert (Hnz : ~ (Qabs xs == 0)%Q) by (rewrite Habs; lra).
    split; [exact Hnz|].
    unfold np_fdiv.
    destruct (Qeq_bool (Qabs xs) 0) eqn:E;
      [apply Qeq_bool_eq in E; contradiction|].
    eexists. split; [reflexivity|]. split.
    + intros Hle. exfalso. unfold x in Hle. nra.
    + intros _. rewrite Habs. field. lra.
Qed.

Lemma fftshift_length {A : Type} (l : list A) : length (fftshift l) = length l.
Proof.
  unfold fftshift. rewrite length_app, length_skipn, length_firstn.
  pose proof (Nat.le_div2_diag_l (length l)). lia.
Qed.

Lemma nth_error_arange (a b : Z) (k : nat) :
  (k < Z.to_nat (b - a))%nat ->
  nth_error (arange a b) k = Some (a + Z.of_nat k)%Z.
Proof.
  intros Hk. unfold arange.
  rewrite nth_error_map, nth_error_seq.
  destruct (Nat.ltb_spec k (Z.to_nat (b - a))); [reflexivity | lia].
Qed.

Section RightHandFilterProps.

Context `{NumLib}.


End RightHandFilterProps.

(** ** The filter on a spectrum without positive-frequency content *)

Lemma argmax_from_no_greater (best : Q) (besti i : nat) (l : list Q) :
  Forall (fun x => (x <= best)%Q) l -> argmax_from best besti i l = besti.
Proof.
  revert i. induction l as [|x l IH]; intros i Hall; [reflexivity|].
  inversion Hall as [|? ? Hx Hl]; subst. cbn [argmax_from].
  destruct (Qle_bool x best) eqn:E.
  - apply IH. exact Hl.
  - apply Qle_bool_iff in Hx. congruence.
Qed.

Lemma np_argmax_all_zero (l : list Q) :
  l <> [] -> Forall (fun x => (x == 0)%Q) l -> np_argmax l = Ok 0%Z.
Proof.
  intros Hne Hall. destruct l as [|x l]; [contradiction|].
  inversion Hall as [|? ? Hx Hl]; subst. cbn [np_argmax].
  rewrite argmax_from_no_greater; [reflexivity|].
  eapply Forall_impl; [|exact Hl]. cbn beta. intros y Hy. lra.
Qed.

Lemma Qsum_all_zero (l : list Q) :
  Forall (fun x => (x == 0)%Q) l -> (Qsum l == 0)%Q.
Proof.
  induction 1 as [|x l Hx Hl IH]; cbn [Qsum fold_right]; [reflexivity|].
  fold (Qsum l). rewrite Hx, IH. reflexivity.
Qed.

Lemma np_fdiv_zero_divisor (x y : Q) : (y == 0)%Q -> np_fdiv x y = None.
Proof.
  intros Hy. unfold np_fdiv.
  destruct (Qeq_bool y 0) eqn:E; [reflexivity|].
  apply Qeq_bool_neq in E. contradiction.
Qed.

Section ZeroSpectrumProps.

Context `{NumLib}.

(** C6 (as the code has it). Let the right-hand spectrum of a record be
    zero everywhere, on a non-empty axis of the same length, and let the
    bandwidth be other than zero.  Then [filter] does not fail: it
    returns a record in which [f0] is the first entry of the frequency
    axis (the first index of a maximum that every entry attains) and
    [f00] is the non-finite quotient of two zero sums. *)
Theorem filter_on_zero_spectrum
    (r : Signal.signal) (bw0 : Q) (order0 : Z)
    (f' rh' : list Q) (swFTrh : list cplx) :
  Signal.f r = Some f' ->
  Signal.filter_swFTrh r = Ok (rh', swFTrh) ->
  length swFTrh = length f' ->
  f' <> [] ->
  Forall (fun c => (cabs c == 0)%Q) swFTrh ->
  ~ (bw0 == 0)%Q ->
  exists r',
    Signal.filter bw0 order0 r = Ok r'
    /\ Signal.f0 r' = Some (hd 0%Q f')
    /\ Signal.f00 r' = Some None
    /\ Signal.td r' = Some ((5 # 4) / bw0)%Q.
Proof.
  intros Hf Hrh Hlen Hne Hzero Hbw.
  unfold Signal.filter. rewrite Hf, Hrh. cbn [getkey bind fst snd].
  rewrite np_argmax_all_zero.
  2:{ destruct swFTrh; [destruct f'; [contradiction|discriminate Hlen]|].
      discriminate. }
  2:{ apply Forall_map. exact Hzero. }
  cbn [bind].
  destruct f' as [|x0 f1] eqn:Ef; [contradiction|]. rewrite <- Ef in *.
  rewrite (@np_getitem_nth _ f' 0 x0);
    [|lia|rewrite Ef; reflexivity].
  cbn [bind].
  set (bp' := map (bp_gain order0) (map (fun x => ((x - x0) / bw0)%Q) f')).
  assert (Hbp : length swFTrh = length bp').
  { unfold bp'. rewrite !length_map. exact Hlen. }
  rewrite (np_mul_same_length (fun c g => cscale g c) swFTrh bp' Hbp).
  cbn [bind].
  set (swFTfilt' := map (fun p => cscale (snd p) (fst p)) (combine swFTrh bp')).
  assert (Hb0 : Forall (fun x => (x == 0)%Q) (map cabs swFTfilt')).
  { apply Forall_map. unfold swFTfilt'. apply Forall_map.
    apply Forall_forall. intros [c g0] Hin. cbn [fst snd].
    apply in_combine_l in Hin.
    rewrite Forall_forall in Hzero. specialize (Hzero c Hin).
    cbn beta in Hzero.
    rewrite cabs_cscale, Hzero. ring. }
  assert (Hfb : length f' = length (map cabs swFTfilt')).
  { unfold swFTfilt'. rewrite !length_map, length_combine. lia. }
  rewrite (np_mul_same_length Qmult f' (map cabs swFTfilt') Hfb).
  cbn [bind].
  rewrite (np_fdiv_zero_divisor _ (Qsum_all_zero Hb0)).
  rewrite (py_fdiv_ok _ Hbw). cbn [bind].
  eexists. split; [reflexivity|].
  cbn [Signal.f0 Signal.f00 Signal.td]. rewrite Ef. cbn [hd].
  repeat split.
Qed.

End ZeroSpectrumProps.

(** ** Chunking *)

Lemma rows_of_length {A : Type} (k c : nat) (l : list A) :
  length (rows_of k c l) = k.
Proof.
  revert l. induction k as [|k IH]; intros l; cbn [rows_of length];
    [reflexivity | rewrite IH; reflexivity].
Qed.

Lemma rows_of_nth {A : Type} (k c : nat) (l : list A) (i : nat) :
  (i < k)%nat ->
  nth_error (rows_of k c l) i = Some (firstn c (skipn (i * c) l)).
Proof.
  revert l i. induction k as [|k IH]; intros l i Hi; [lia|].
  destruct i as [|i]; cbn [rows_of nth_error].
  - reflexivity.
  - rewrite IH by lia. rewrite skipn_skipn. do 3 f_equal. lia.
Qed.

Lemma firstn_plus {A : Type} (a b : nat) (l : list A) :
  firstn (a + b) l = firstn a l ++ firstn b (skipn a l).
Proof.
  revert l. induction a as [|a IH]; intros l; [reflexivity|].
  destruct l as [|x l]; cbn [Nat.add firstn skipn app].
  - rewrite firstn_nil. reflexivity.
  - rewrite IH. reflexivity.
Qed.

(** The rows, put end to end, are the first [k*c] entries. *)
Lemma rows_of_concat {A : Type} (k c : nat) (l : list A) :
  concat (rows_of k c l) = firstn (k * c) l.
Proof.
  revert l. induction k as [|k IH]; intros l; cbn [rows_of concat].
  - reflexivity.
  - rewrite IH. cbn [Nat.mul]. rewrite firstn_plus. reflexivity.
Qed.

Lemma firstn_skipn_as_map {A : Type} (d : A) (a c : nat) (l : list A) :
  (a + c <= length l)%nat ->
  firstn c (skipn a l) = map (fun k => nth (a + k) l d) (seq 0 c).
Proof.
  intros Hle. apply nth_ext with (d := d) (d' := d).
  - rewrite length_map, length_seq, length_firstn, length_skipn. lia.
  - intros k Hk. rewrite length_firstn, length_skipn in Hk.
    rewrite nth_firstn.
    destruct (Nat.ltb_spec k c); [|lia].
    rewrite nth_skipn.
    set (g := fun j => nth (a + j) l d).
    rewrite (nth_indep (map g (seq 0 c)) d (g 0%nat))
      by (rewrite length_map, length_seq; lia).
    rewrite map_nth, seq_nth by lia. reflexivity.
Qed.

Lemma row_of_prefix {A : Type} (i c N : nat) (l : list A) :
  (i * c + c <= N)%nat ->
  firstn c (skipn (i * c) (firstn N l)) = firstn c (skipn (i * c) l).
Proof.
  intros Hle. rewrite skipn_firstn_comm, firstn_firstn.
  f_equal. lia.
Qed.

Lemma combine_map_same {A B C : Type} (g : A -> B) (h : A -> C) (l : list A) :
  combine (map g l) (map h l) = map (fun k => (g k, h k)) l.
Proof.
  induction l as [|x l IH]; cbn [map combine]; [reflexivity | rewrite IH; reflexivity].
Qed.

Lemma Qsum_map_ext {A : Type} (g h : A -> Q) (l : list A) :
  (forall k, In k l -> (g k == h k)%Q) ->
  (Qsum (map g l) == Qsum (map h l))%Q.
Proof.
  induction l as [|x l IH]; intros Hext; cbn [map Qsum fold_right].
  - reflexivity.
  - fold (Qsum (map g l)) (Qsum (map h l)).
    rewrite (Hext x) by (left; reflexivity).
    rewrite IH; [reflexivity|]. intros k Hk. apply Hext. right. exact Hk.
Qed.

Lemma np_fdiv_feq (x y x' y' : Q) :
  (x == x')%Q -> (y == y')%Q -> feq (np_fdiv x y) (np_fdiv x' y').
Proof.
  intros Hx Hy. unfold np_fdiv.
  destruct (Qeq_bool y 0) eqn:E, (Qeq_bool y' 0) eqn:E'; cbn [feq].
  - exact I.
  - apply Qeq_bool_eq in E. apply Qeq_bool_neq in E'. rewrite Hy in E. contradiction.
  - apply Qeq_bool_neq in E. apply Qeq_bool_eq in E'. rewrite Hy in E. contradiction.
  - rewrite Hx, Hy. reflexivity.
Qed.

Lemma py_round_inject_Z (d : Z) : py_round (inject_Z d) = d.
Proof.
  unfold py_round.
  destruct (Qle_bool 0 (inject_Z d)).
  - unfold Qfloor, Qplus, inject_Z. cbn [Qnum Qden].
    replace (d * 2 + 1 * 1)%Z with (1 + d * 2)%Z by lia.
    rewrite Z.div_add by lia. cbn. lia.
  - unfold Qceiling, Qfloor, Qminus, Qopp, Qplus, inject_Z. cbn [Qnum Qden].
    replace (- (d * 2 + - (1) * 1))%Z with (1 + (- d) * 2)%Z by lia.
    rewrite Z.div_add by lia. cbn. lia.
Qed.

Lemma column0_nonempty_rows {A : Type} (d : A) (rows : list (list A)) :
  Forall (fun row => row <> []) rows ->
  column0 rows = Ok (map (hd d) rows).
Proof.
  induction 1 as [|row rows Hrow Hrows IH]; [reflexivity|].
  destruct row as [|v row]; [contradiction|].
  cbn [column0 map hd]. rewrite IH. reflexivity.
Qed.

(** ** The chunked fit *)

Lemma rows_of_as_map {A : Type} (k c : nat) (l : list A) :
  rows_of k c l = map (fun i => firstn c (skipn (i * c) l)) (seq 0 k).
Proof.
  revert l. induction k as [|k IH]; intros l; [reflexivity|].
  cbn [rows_of seq map]. f_equal.
  rewrite IH, <- seq_shift, map_map.
  apply map_ext. intros i. rewrite skipn_skipn. do 2 f_equal. lia.
Qed.

Lemma fit_slopes_as_map (dt0 : Q) (n : Z) (cc : nat) (trow srow : nat -> list Q) :
  Signal.fit_slopes dt0 n (map trow (seq 0 cc)) (map srow (seq 0 cc))
  = map (fun i =>
           Signal.fit_slope dt0 n
             (Qsum (map (fun xy => (fst xy * snd xy)%Q)
                        (combine (reset_row (trow i)) (reset_row (srow i)))))
             (Qsum (reset_row (srow i))))
        (seq 0 cc).
Proof.
  unfold Signal.fit_slopes, reset_rows. fold reset_row.
  rewrite !map_map, combine_map_same, map_map, combine_map_same, map_map.
  reflexivity.
Qed.

(** A row of [n >= 1] entries read off the array, and its reset form. *)
Lemma reset_row_as_map (x : list Q) (n i : nat) :
  (1 <= n)%nat -> (i * n + n <= length x)%nat ->
  reset_row (firstn n (skipn (i * n) x))
  = map (fun k => (nth (i * n + k) x 0 - nth (i * n + 0) x 0 * 1)%Q) (seq 0 n).
Proof.
  intros Hn Hle.
  rewrite (firstn_skipn_as_map 0%Q) by exact Hle.
  unfold reset_row. rewrite map_map.
  destruct n as [|n]; [lia|]. reflexivity.
Qed.

Lemma chunk_sums (t0 theta0 : list Q) (n i : nat) :
  (1 <= n)%nat ->
  (i * n + n <= length t0)%nat -> (i * n + n <= length theta0)%nat ->
  (Qsum (reset_row (firstn n (skipn (i * n) theta0))) == chunk_Sy theta0 n i)%Q
  /\ (Qsum (map (fun xy => (fst xy * snd xy)%Q)
                (combine (reset_row (firstn n (skipn (i * n) t0)))
                         (reset_row (firstn n (skipn (i * n) theta0)))))
      == chunk_Sxy t0 theta0 n i)%Q.
Proof.
  intros Hn Ht Hth.
  rewrite !reset_row_as_map by assumption.
  rewrite combine_map_same, map_map. cbn [fst snd].
  unfold chunk_Sy, chunk_Sxy, chunk_reset. rewrite Nat.add_0_r.
  split; apply Qsum_map_ext; intros k _; ring.
Qed.

Section FitProps.

Context `{NumLib}.

Lemma fit_sub_rows (x : list Q) (n c : Z) :
  (1 <= n)%Z -> (0 <= c)%Z -> (n * c <= Z.of_nat (length x))%Z ->
  Signal.fit_sub x c n
  = Ok (rows_of (Z.to_nat c) (Z.to_nat n) (firstn (Z.to_nat (n * c)) x)).
Proof.
  intros Hn Hc Hle. unfold Signal.fit_sub.
  rewrite py_slice_prefix by lia. unfold np_reshape.
  destruct (Z.ltb_spec c 0); [lia|]. destruct (Z.ltb_spec n 0); [lia|].
  cbn [orb]. rewrite length_firstn.
  destruct (Z.eqb_spec (c * n) (Z.of_nat (Nat.min (Z.to_nat (n * c)) (length x))));
    [reflexivity | lia].
Qed.

Variable r : Signal.signal.
Variable dt_chunk_target : Q.
Variable theta0 : list Q.

Hypothesis Htheta : Signal.theta r = Some theta0.
Hypothesis Hdt : ~ (Signal.dt r == 0)%Q.

(** The samples per chunk, the number of chunks and the number of samples
    in all chunks. *)
Let n : Z := py_round (dt_chunk_target / Signal.dt r).
Let nn : nat := Z.to_nat n.
Let cc : nat := (length theta0 / nn)%nat.

Hypothesis Hn : (1 <= n)%Z.

Lemma chunks_fit_in_phase : (nn * cc <= length theta0)%nat.
Proof. unfold cc. apply Nat.Div0.mul_div_le. Qed.

Lemma fit_chunk_counts :
  Signal.fit_n_per_chunk dt_chunk_target r = Ok n
  /\ Signal.fit_n_tot_chunk (Z.of_nat (length theta0)) n = Ok (Z.of_nat cc).
Proof.
  split.
  - unfold Signal.fit_n_per_chunk. rewrite (py_fdiv_ok _ Hdt). reflexivity.
  - unfold Signal.fit_n_tot_chunk, py_idiv.
    destruct (Z.eqb_spec n 0); [lia|]. cbn [bind].
    rewrite py_round_inject_Z. f_equal. unfold cc, nn.
    rewrite Nat2Z.inj_div, Z2Nat.id by lia. reflexivity.
Qed.

Hypothesis Ht : (nn * cc <= length (Signal.t r))%nat.

(** What [fit] returns: the slopes and the first times of the rows of the
    first [nn * cc] entries of the phase and of the time. *)
Lemma fit_result :
  exists r',
    Signal.fit dt_chunk_target r = Ok r'
    /\ Signal.fit_freq r'
       = Some (Signal.fit_slopes (Signal.dt r) n
                 (rows_of cc nn (firstn (nn * cc) (Signal.t r)))
                 (rows_of cc nn (firstn (nn * cc) theta0)))
    /\ Signal.fit_time r'
       = Some (map (hd 0%Q) (rows_of cc nn (firstn (nn * cc) (Signal.t r))))
    /\ Signal.s r' = Signal.s r
    /\ Signal.t r' = Signal.t r
    /\ Signal.theta r' = Signal.theta r.
Proof.
  destruct fit_chunk_counts as [Hnpc Hntc].
  pose proof chunks_fit_in_phase as Hth.
  unfold Signal.fit. rewrite Hnpc, Htheta. cbn [bind getkey].
  rewrite Hntc. cbn [bind].
  rewrite !fit_sub_rows by (unfold nn in *; lia).
  cbn [bind]. rewrite Nat2Z.id.
  replace (Z.to_nat (n * Z.of_nat cc)) with (nn * cc)%nat by (unfold nn; lia).
  fold nn.
  rewrite (column0_nonempty_rows 0%Q).
  2:{ rewrite rows_of_as_map. apply Forall_map. apply Forall_forall.
      intros i Hi. apply in_seq in Hi.
      rewrite row_of_prefix by nia.
      intros Hnil. apply (f_equal (@length Q)) in Hnil.
      rewrite length_firstn, length_skipn in Hnil. cbn [length] in Hnil.
      unfold nn in *. nia. }
  cbn [bind]. eexists. split; [reflexivity|].
  cbn [Signal.fit_freq Signal.fit_time Signal.s Signal.t Signal.theta].
  repeat split.
Qed.

Lemma fit_SX_analytic : (Signal.fit_SX (Signal.dt r) n == analytic_Sx (Signal.dt r) n)%Q.
Proof. unfold Signal.fit_SX, analytic_Sx. field. Qed.

Lemma fit_SXX_analytic : (Signal.fit_SXX (Signal.dt r) n == analytic_Sxx (Signal.dt r) n)%Q.
Proof. unfold Signal.fit_SXX, analytic_Sxx. field. Qed.


End FitProps.

Section FitChunking.

Context `{NumLib}.


End FitChunking.

(** * Concrete runs *)

(** C4, witness: ten samples, mode middle. *)
Lemma binarate_witness :
  exists r',
    Signal.binarate "middle" (Demo.constructed (Demo.ramp 10) 1) = Ok r'
    /\ Signal.s r' = map inject_Z [2; 3; 4; 5; 6; 7; 8; 9]%Z
    /\ length (Signal.t r') = 8%nat.
Proof.
  destruct (@binarate_truncates_to_power_of_two rational_lib "middle"
              (Demo.constructed (Demo.ramp 10) 1))
    as (r' & Hok & _ & _ & _ & _ & Hs & _ & _ & Hlt & _).
  - vm_compute. lia.
  - reflexivity.
  - right. left. reflexivity.
  - exists r'. split; [exact Hok|]. split; [rewrite Hs; reflexivity | exact Hlt].
Defined.




(** C10, witness: [td = 0.25], [dt = 1]. *)
Lemma trim_zero_witness :
  exists r',
    Signal.trim (Demo.analytic (Demo.ramp 10) 1 5) = Ok r'
    /\ Signal.t r' = [] /\ Signal.theta r' = Some [].
Proof.
  pose (D := Demo.analytic (Demo.ramp 10) 1 5).
  assert (Htd : Signal.td D = Some ((5 # 4) / 5)%Q)
    by (vm_compute; reflexivity).
  assert (Hz : Signal.z D = Some (Demo.value [] (Signal.z D)))
    by (vm_compute; reflexivity).
  assert (Hth : Signal.theta D = Some (Demo.value [] (Signal.theta D)))
    by (vm_compute; reflexivity).
  assert (Ha : Signal.a D = Some (Demo.value [] (Signal.a D)))
    by (vm_compute; reflexivity).
  assert (Hdt : ~ (Signal.dt D == 0)%Q) by (vm_compute; discriminate).
  destruct (@trim_zero_index_empties rational_lib D _ _ _ _ Htd Hz Hth Ha Hdt)
    as (r' & Hok & _ & Hth' & _ & Ht & _).
  - vm_compute. reflexivity.
  - exists r'. split; [exact Hok|]. split; [exact Ht | exact Hth'].
Defined.




(** C6, witness: four samples that are all zero. *)
Lemma zero_spectrum_witness :
  exists r',
    Signal.filter 1 Signal.default_order (Demo.transformed [0; 0; 0; 0] 1) = Ok r'
    /\ Signal.f0 r' = Some (-2 # 4)
    /\ Signal.f00 r' = Some None.
Proof.
  pose (D := Demo.transformed [0; 0; 0; 0]%Q 1).
  pose (p := Demo.run_value (Signal.filter_swFTrh D)).
  assert (Hf : Signal.f D = Some (Demo.value [] (Signal.f D)))
    by (vm_compute; reflexivity).
  assert (Hrh : Signal.filter_swFTrh D = Ok (fst p, snd p))
    by (vm_compute; reflexivity).
  destruct (@filter_on_zero_spectrum rational_lib D 1 Signal.default_order
              _ _ _ Hf Hrh)
    as (r' & Hok & Hf0 & Hf00 & _).
  - vm_compute. reflexivity.
  - vm_compute. discriminate.
  - vm_compute. repeat constructor.
  - discriminate.
  - exists r'. split; [exact Hok|]. split; [|exact Hf00].
    rewrite Hf0. vm_compute. reflexivity.
Defined.

(** C6, counterexample: on that record, whose right-hand spectrum is zero
    everywhere, [filter] returns. *)
Lemma filter_returns_on_zero_spectrum :
  (exists r', Signal.filter 1 Signal.default_order
                (Demo.transformed [0; 0; 0; 0] 1) = Ok r')
  /\ ~ filter_rejects_zero_spectrum.
Proof.
  pose (D := Demo.transformed [0; 0; 0; 0]%Q 1).
  pose (p := Demo.run_value (Signal.filter_swFTrh D)).
  assert (Hok : Signal.filter 1 Signal.default_order D
                = Ok (Demo.run (Signal.filter 1 Signal.default_order D)))
    by (vm_compute; reflexivity).
  split; [eexists; exact Hok|].
  intros Hclaim.
  assert (Hrh : Signal.filter_swFTrh D = Ok (fst p, snd p))
    by (vm_compute; reflexivity).
  destruct (Hclaim D 1%Q Signal.default_order _ _ Hrh) as [e He].
  - vm_compute. repeat constructor.
  - rewrite Hok in He. discriminate He.
Qed.




(** A phase that grows by one cycle per sample, in chunks of three: both
    slopes are one. *)
Example fit_slopes_of_linear_phase :
  Signal.fit_slopes 1 3
    (rows_of 2 3 (map inject_Z [0; 1; 2; 3; 4; 5]%Z))
    (rows_of 2 3 (map inject_Z [7; 8; 9; 10; 11; 12]%Z))
  = [Some (288 # 288); Some (288 # 288)].
Proof. vm_compute. reflexivity. Qed.

(** C7, counterexample. Construction with [dt = -1] returns a record, and
    so does construction with no samples: nothing is rejected. *)
Lemma init_accepts_invalid_input :
  Signal.__init__ [1%Q] "x" "nm" (-1)%Q
  = Ok (Signal.init_signal [1%Q] "x" "nm" (-1)%Q)
  /\ Signal.__init__ [] "x" "nm" 1%Q
     = Ok (Signal.init_signal [] "x" "nm" 1%Q)
  /\ ~ ingest_rejects_invalid_input.
Proof.
  split; [reflexivity|]. split; [reflexivity|].
  intros Hclaim.
  destruct (Hclaim [1%Q] "x"%string "nm"%string (-1)%Q) as [e He].
  - left. discriminate.
  - discriminate He.
Qed.

(** * Further properties of the stages *)

(** ** The centred layout *)

Lemma fftshift_app {A : Type} (a b : list A) :
  length a = (length (a ++ b) - Nat.div2 (length (a ++ b)))%nat ->
  fftshift (a ++ b) = b ++ a.
Proof.
  intros Hlen. unfold fftshift. rewrite <- Hlen.
  rewrite skipn_app, firstn_app, Nat.sub_diag, skipn_all, firstn_all.
  cbn [skipn firstn app]. rewrite app_nil_r. reflexivity.
Qed.

Lemma div2_of_nat (n : nat) : Z.of_nat (Nat.div2 n) = (Z.of_nat n / 2)%Z.
Proof. rewrite Nat.div2_div, Nat2Z.inj_div. reflexivity. Qed.

(** X1. Rolling an array of even length twice gives the array back: on an
    even number of points the [fftshift] of [ifft] undoes the [fftshift]
    of [fft]. *)
Theorem fftshift_involutive_on_even_length {A : Type} (l : list A) :
  Nat.Even (length l) -> fftshift (fftshift l) = l.
Proof.
  intros [m Hm].
  assert (Hd : Nat.div2 (length l) = m).
  { rewrite Hm, Nat.div2_double. reflexivity. }
  assert (Hp : (length l - Nat.div2 (length l))%nat = m) by lia.
  unfold fftshift at 2. rewrite Hp.
  rewrite fftshift_app.
  - apply firstn_skipn.
  - rewrite length_app, length_skipn, length_firstn.
    replace (length l - m + Nat.min m (length l))%nat with (2 * m)%nat by lia.
    rewrite Nat.div2_double. lia.
Qed.

(** X1, witness: four points. *)
Lemma fftshift_involutive_witness :
  fftshift (fftshift [1; 2; 3; 4]%Z) = [1; 2; 3; 4]%Z.
Proof.
  apply fftshift_involutive_on_even_length. exists 2%nat. reflexivity.
Defined.

(** On an odd number of points a second roll does not undo the first. *)
Example fftshift_twice_on_odd_length :
  fftshift (fftshift [1; 2; 3]%Z) = [2; 3; 1]%Z.
Proof. reflexivity. Qed.

(** The centred axis of [n >= 1] points: the integers from [-(n//2)] up,
    each times [1/(n*d)]. *)
Lemma fftshift_fftfreq (n : Z) (d : Q) :
  (1 <= n)%Z -> ~ (d == 0)%Q ->
  exists freq,
    fftfreq n d = Ok freq
    /\ fftshift freq
       = map (fun k => (inject_Z k * (1 / (inject_Z n * d)))%Q)
             (arange (- (n / 2)) (n - n / 2)).
Proof.
  intros Hn Hd. unfold fftfreq.
  rewrite py_fdiv_ok.
  2:{ intros Hz. apply Qmult_integral in Hz. destruct Hz as [Hz|Hz]; [|auto].
      revert Hz. change 0%Q with (inject_Z 0). rewrite inject_Z_injective. lia. }
  cbn [bind]. eexists. split; [reflexivity|].
  rewrite fftshift_map. f_equal.
  assert (HN : ((n - 1) / 2 + 1 = n - n / 2)%Z).
  { pose proof (Z.div_mod n 2). pose proof (Z.mod_pos_bound n 2).
    pose proof (Z.div_mod (n - 1) 2). pose proof (Z.mod_pos_bound (n - 1) 2).
    lia. }
  rewrite HN.
  assert (Hh : (0 <= n / 2)%Z) by (apply Z.div_pos; lia).
  assert (Hh2 : (n / 2 <= n)%Z).
  { pose proof (Z.div_mod n 2). pose proof (Z.mod_pos_bound n 2). lia. }
  rewrite fftshift_app.
  - apply arange_app; lia.
  - rewrite length_app, !arange_length.
    apply Nat2Z.inj. rewrite Nat2Z.inj_sub.
    + rewrite div2_of_nat.
      replace (Z.of_nat (Z.to_nat (n - n / 2 - 0) + Z.to_nat (0 - - (n / 2))))
        with n by lia.
      lia.
    + apply Nat.le_div2_diag_l.
Qed.

(** ** The forward transform *)

Section FftProps.

Context `{NumLib}.

(** What [fft] writes when it returns. *)
Lemma fft_result (r : Signal.signal) (sw0 : list Q) :
  Signal.sw r = Some sw0 ->
  (2 <= length sw0)%nat ->
  ~ (Signal.dt r == 0)%Q ->
  let n := Z.of_nat (length sw0) in
  let g := fun k : Z => (inject_Z k * (1 / (inject_Z n * Signal.dt r)))%Q in
  exists r1,
    Signal.fft r = Ok r1
    /\ Signal.swFT r1 = Some (fftshift (np_fft sw0))
    /\ Signal.f r1 = Some (map g (arange (- (n / 2)) (n - n / 2)))
    /\ Signal.df r1 = Some (g (- (n / 2) + 1)%Z - g (- (n / 2) + 0)%Z)%Q
    /\ Signal.dt r1 = Signal.dt r
    /\ Signal.s r1 = Signal.s r
    /\ Signal.t r1 = Signal.t r.
Proof.
  intros Hsw Hlen Hdt n g.
  assert (Hn : Z.of_nat (length (fftshift (np_fft sw0))) = n).
  { rewrite fftshift_length, np_fft_length. reflexivity. }
  destruct (@fftshift_fftfreq n (Signal.dt r)) as (freq & Hfreq & Hshift);
    [lia | exact Hdt |].
  fold g in Hshift.
  assert (Hh : (0 <= n / 2)%Z) by (apply Z.div_pos; lia).
  assert (Hh2 : (2 * (n / 2) <= n)%Z).
  { pose proof (Z.div_mod n 2). pose proof (Z.mod_pos_bound n 2). lia. }
  assert (Hnth : forall i, (Z.of_nat i < n)%Z ->
            nth_error (fftshift freq) i = Some (g (- (n / 2) + Z.of_nat i)%Z)).
  { intros i Hi. rewrite Hshift, nth_error_map, nth_error_arange by lia.
    reflexivity. }
  unfold Signal.fft. rewrite Hsw. cbn [getkey bind].
  destruct sw0 as [|x0 sw1]; [cbn [length] in Hlen; lia|].
  rewrite Hn, Hfreq. cbn [bind].
  rewrite (@np_getitem_nth _ (fftshift freq) 1 (g (- (n / 2) + 1)%Z));
    [|lia|apply (Hnth 1%nat); lia].
  rewrite (@np_getitem_nth _ (fftshift freq) 0 (g (- (n / 2) + 0)%Z));
    [|lia|apply (Hnth 0%nat); lia].
  cbn [bind]. eexists. split; [reflexivity|].
  cbn [Signal.swFT Signal.f Signal.df Signal.dt Signal.s Signal.t].
  rewrite Hshift. repeat split.
Qed.

Lemma fft_zero_dt (r : Signal.signal) (sw0 : list Q) :
  Signal.sw r = Some sw0 -> sw0 <> [] -> (Signal.dt r == 0)%Q ->
  Signal.fft r = Raise ZeroDivisionError.
Proof.
  intros Hsw Hne Hdt. unfold Signal.fft. rewrite Hsw. cbn [getkey bind].
  destruct sw0 as [|x0 sw1]; [contradiction|].
  unfold fftfreq, py_fdiv.
  destruct (Qeq_bool _ 0) eqn:E; [reflexivity|].
  apply Qeq_bool_neq in E. exfalso. apply E. rewrite Hdt. ring.
Qed.

Lemma fft_one_sample (r : Signal.signal) (x : Q) :
  Signal.sw r = Some [x] -> ~ (Signal.dt r == 0)%Q ->
  Signal.fft r = Raise IndexError.
Proof.
  intros Hsw Hdt. unfold Signal.fft. rewrite Hsw. cbn [getkey bind].
  assert (Hn : Z.of_nat (length (fftshift (np_fft [x]))) = 1%Z).
  { rewrite fftshift_length, np_fft_length. reflexivity. }
  rewrite Hn.
  destruct (@fftshift_fftfreq 1 (Signal.dt r)) as (freq & Hfreq & Hshift);
    [lia | exact Hdt |].
  rewrite Hfreq. cbn [bind]. rewrite Hshift. reflexivity.
Qed.

(** A call of [fft] that returned had at least two windowed samples and a
    [dt] other than zero. *)
Lemma fft_inversion (r r1 : Signal.signal) :
  Signal.fft r = Ok r1 ->
  exists sw0, Signal.sw r = Some sw0 /\ (2 <= length sw0)%nat
              /\ ~ (Signal.dt r == 0)%Q.
Proof.
  intros Hok.
  destruct (Signal.sw r) as [sw0|] eqn:Hsw.
  2:{ unfold Signal.fft in Hok. rewrite Hsw in Hok. discriminate Hok. }
  exists sw0. split; [reflexivity|].
  destruct (Qeq_dec (Signal.dt r) 0) as [Hdt|Hdt].
  - destruct sw0 as [|x0 sw1].
    + unfold Signal.fft in Hok. rewrite Hsw in Hok. discriminate Hok.
    + rewrite (@fft_zero_dt r (x0 :: sw1)) in Hok;
        [discriminate Hok | exact Hsw | discriminate | exact Hdt].
  - split; [|exact Hdt].
    destruct sw0 as [|x0 [|x1 sw2]]; cbn [length]; try lia.
    + unfold Signal.fft in Hok. rewrite Hsw in Hok. discriminate Hok.
    + rewrite (@fft_one_sample r x0) in Hok;
        [discriminate Hok | exact Hsw | exact Hdt].
Qed.

(** X2. [fft] returns exactly when the windowed signal is there, has at
    least two samples, and [dt] is not zero.  Without the windowed signal
    it raises [KeyError]; on no sample, [ValueError]; on one sample with
    [dt] other than zero, [IndexError] (the spacing is read from the first
    two entries of the axis); with [dt] zero on a non-empty signal,
    [ZeroDivisionError]. *)
Theorem fft_returns_iff_two_samples (r : Signal.signal) :
  ((exists r1, Signal.fft r = Ok r1)
   <-> exists sw0, Signal.sw r = Some sw0 /\ (2 <= length sw0)%nat
                   /\ ~ (Signal.dt r == 0)%Q)
  /\ (Signal.sw r = None -> Signal.fft r = Raise KeyError)
  /\ (Signal.sw r = Some [] -> Signal.fft r = Raise ValueError)
  /\ (forall x, Signal.sw r = Some [x] -> ~ (Signal.dt r == 0)%Q ->
                Signal.fft r = Raise IndexError)
  /\ (forall sw0, Signal.sw r = Some sw0 -> sw0 <> [] -> (Signal.dt r == 0)%Q ->
                  Signal.fft r = Raise ZeroDivisionError).
Proof.
  split; [|split; [|split; [|split]]].
  - split.
    + intros [r1 Hok]. exact (fft_inversion r Hok).
    + intros (sw0 & Hsw & Hlen & Hdt).
      destruct (fft_result r Hsw Hlen Hdt) as (r1 & Hok & _).
      exists r1. exact Hok.
  - intros Hsw. unfold Signal.fft. rewrite Hsw. reflexivity.
  - intros Hsw. unfold Signal.fft. rewrite Hsw. reflexivity.
  - intros x. apply fft_one_sample.
  - intros sw0. apply fft_zero_dt.
Qed.

End FftProps.

Section FftAxis.

Context `{NumLib}.

(** X3. On [n >= 2] windowed samples with [dt] other than zero, [fft]
    returns a spectrum and a frequency axis of [n] entries each, with
    spacing [df = 1/(n*dt)]; entry [i] of the axis is [(i - n//2) * df], so
    the axis rises in equal steps and holds the frequency zero at index
    [n//2], for even and for odd [n]. *)
Theorem fft_frequency_axis (r : Signal.signal) (sw0 : list Q) :
  Signal.sw r = Some sw0 ->
  (2 <= length sw0)%nat ->
  ~ (Signal.dt r == 0)%Q ->
  exists r1 swFT' f' df',
    Signal.fft r = Ok r1
    /\ Signal.swFT r1 = Some swFT'
    /\ Signal.f r1 = Some f'
    /\ Signal.df r1 = Some df'
    /\ length swFT' = length sw0
    /\ length f' = length sw0
    /\ (df' == 1 / (inject_Z (Z.of_nat (length sw0)) * Signal.dt r))%Q
    /\ (forall i, (i < length sw0)%nat ->
          (nth i f' 0 == inject_Z (Z.of_nat i - Z.of_nat (length sw0) / 2) * df')%Q)
    /\ (nth (length sw0 / 2) f' 0 == 0)%Q.
Proof.
  intros Hsw Hlen Hdt.
  destruct (fft_result r Hsw Hlen Hdt) as (r1 & Hok & HswFT & Hf & Hdf & _).
  set (n := Z.of_nat (length sw0)) in *.
  set (val := (1 / (inject_Z n * Signal.dt r))%Q) in *.
  set (g := fun k : Z => (inject_Z k * val)%Q) in *.
  assert (Hh : (0 <= n / 2)%Z) by (apply Z.div_pos; lia).
  assert (Hh2 : (2 * (n / 2) <= n)%Z).
  { pose proof (Z.div_mod n 2). pose proof (Z.mod_pos_bound n 2). lia. }
  assert (Hdfv : (inject_Z (- (n / 2) + 1) * val
                  - inject_Z (- (n / 2) + 0) * val == val)%Q).
  { rewrite !inject_Z_plus. change (inject_Z 0) with 0%Q.
    change (inject_Z 1) with 1%Q. ring. }
  assert (Hnth : forall i, (i < length sw0)%nat ->
            nth i (map g (arange (- (n / 2)) (n - n / 2))) 0%Q
            = g (- (n / 2) + Z.of_nat i)%Z).
  { intros i Hi. apply nth_error_nth.
    rewrite nth_error_map, nth_error_arange by lia. reflexivity. }
  exists r1. eexists. eexists. eexists.
  split; [exact Hok|]. split; [exact HswFT|]. split; [exact Hf|].
  split; [exact Hdf|].
  split; [rewrite fftshift_length, np_fft_length; reflexivity|].
  split; [rewrite length_map, arange_length; lia|].
  split; [exact Hdfv|]. split.
  - intros i Hi. rewrite (Hnth i Hi), Hdfv. unfold g.
    replace (- (n / 2) + Z.of_nat i)%Z with (Z.of_nat i - n / 2)%Z by lia.
    reflexivity.
  - assert (Hi : (length sw0 / 2 < length sw0)%nat)
      by (apply Nat.div_lt; lia).
    rewrite (Hnth _ Hi). unfold g.
    rewrite Nat2Z.inj_div. fold n.
    replace (- (n / 2) + n / Z.of_nat 2)%Z with 0%Z by (cbn; lia).
    change (inject_Z 0) with 0%Q. ring.
Qed.

End FftAxis.

(** X3, witness: five samples every half second. *)
Lemma fft_frequency_axis_witness :
  exists r1 f',
    Signal.fft (Demo.windowed (Demo.ramp 5) (1 # 2)) = Ok r1
    /\ Signal.f r1 = Some f'
    /\ length f' = 5%nat
    /\ (nth 2 f' 0 == 0)%Q.
Proof.
  pose (D := Demo.windowed (Demo.ramp 5) (1 # 2)).
  assert (Hsw : Signal.sw D = Some (Demo.value [] (Signal.sw D)))
    by (vm_compute; reflexivity).
  destruct (@fft_frequency_axis rational_lib D _ Hsw)
    as (r1 & swFT' & f' & df' & Hok & _ & Hf & _ & _ & Hlen & _ & _ & Hz).
  - vm_compute. lia.
  - vm_compute. discriminate.
  - exists r1, f'. split; [exact Hok|]. split; [exact Hf|].
    split; [rewrite Hlen; vm_compute; reflexivity | exact Hz].
Defined.

(** ** The filter *)

Lemma Qle_bool_false (x y : Q) : Qle_bool x y = false -> (y < x)%Q.
Proof.
  intros E. apply Qnot_le_lt. intros Hle.
  apply Qle_bool_iff in Hle. congruence.
Qed.

(** [argmax_from] returns the position of the first greatest entry among
    the running best and the entries of the list. *)
Lemma argmax_from_spec (l : list Q) :
  forall (best : Q) (besti i : nat),
    let j := argmax_from best besti i l in
    (j = besti /\ Forall (fun x => (x <= best)%Q) l)
    \/ (exists p v,
          j = (i + p)%nat
          /\ nth_error l p = Some v
          /\ (best < v)%Q
          /\ Forall (fun x => (x <= v)%Q) l
          /\ forall q w, (q < p)%nat -> nth_error l q = Some w -> (w < v)%Q).
Proof.
  induction l as [|x l IH]; intros best besti i; cbn [argmax_from].
  - left. split; [reflexivity | constructor].
  - destruct (Qle_bool x best) eqn:E.
    + apply Qle_bool_iff in E.
      destruct (IH best besti (S i)) as [[Hj Hall] | (p & v & Hj & Hp & Hlt & Hall & Hfirst)].
      * left. split; [exact Hj | constructor; assumption].
      * right. exists (S p), v. split; [lia|]. split; [exact Hp|].
        split; [exact Hlt|]. split.
        -- constructor; [lra | exact Hall].
        -- intros q w Hq Hw. destruct q as [|q].
           ++ cbn in Hw. injection Hw as <-. lra.
           ++ cbn in Hw. apply (Hfirst q w); [lia | exact Hw].
    + apply Qle_bool_false in E.
      destruct (IH x i (S i)) as [[Hj Hall] | (p & v & Hj & Hp & Hlt & Hall & Hfirst)].
      * right. exists 0%nat, x. split; [lia|]. split; [reflexivity|].
        split; [exact E|]. split.
        -- constructor; [lra | exact Hall].
        -- intros q w Hq. lia.
      * right. exists (S p), v. split; [lia|]. split; [exact Hp|].
        split; [lra|]. split.
        -- constructor; [lra | exact Hall].
        -- intros q w Hq Hw. destruct q as [|q].
           ++ cbn in Hw. injection Hw as <-. exact Hlt.
           ++ cbn in Hw. apply (Hfirst q w); [lia | exact Hw].
Qed.

(** [np_argmax] on a non-empty array returns a valid index; the entry
    there is no less than any entry and greater than every earlier one. *)
Lemma np_argmax_spec (l : list Q) :
  l <> [] ->
  exists k v,
    np_argmax l = Ok (Z.of_nat k)
    /\ nth_error l k = Some v
    /\ Forall (fun x => (x <= v)%Q) l
    /\ forall q w, (q < k)%nat -> nth_error l q = Some w -> (w < v)%Q.
Proof.
  intros Hne. destruct l as [|x l]; [contradiction|]. cbn [np_argmax].
  destruct (argmax_from_spec l x 0 1)
    as [[Hj Hall] | (p & v & Hj & Hp & Hlt & Hall & Hfirst)].
  - exists 0%nat, x. rewrite Hj. split; [reflexivity|]. split; [reflexivity|].
    split; [constructor; [lra | exact Hall]|]. intros q w Hq. lia.
  - exists (S p), v. rewrite Hj. split; [reflexivity|]. split; [exact Hp|].
    split; [constructor; [lra | exact Hall]|].
    intros q w Hq Hw. destruct q as [|q].
    + cbn in Hw. injection Hw as <-. exact Hlt.
    + cbn in Hw. apply (Hfirst q w); [lia | exact Hw].
Qed.

Lemma all_finite_length (l : list float) (l' : list Q) :
  all_finite l = Ok l' -> length l' = length l.
Proof.
  revert l'. induction l as [|[q|] l IH]; intros l' Hok; cbn [all_finite] in Hok.
  - inv_ok Hok. reflexivity.
  - inv_bind Hok. inv_ok Hok. cbn [length]. f_equal. apply IH. reflexivity.
  - discriminate Hok.
Qed.

Lemma all_finite_fdiv {A : Type} (num den : A -> Q) (l : list A) :
  (forall x, In x l -> ~ (den x == 0)%Q) ->
  all_finite (map (fun x => np_fdiv (num x) (den x)) l)
  = Ok (map (fun x => (num x / den x)%Q) l).
Proof.
  induction l as [|x l IH]; intros Hden; [reflexivity|].
  cbn [map all_finite]. unfold np_fdiv at 1.
  destruct (Qeq_bool (den x) 0) eqn:E.
  - apply Qeq_bool_eq in E. exfalso. apply (Hden x); [left; reflexivity | exact E].
  - rewrite IH; [reflexivity|]. intros y Hy. apply Hden. right. exact Hy.
Qed.

Section FilterResult.

Context `{NumLib}.

Variable r : Signal.signal.
Variables (bw0 : Q) (order0 : Z).
Variables (f' : list Q) (df' : Q) (swFT' : list cplx) (rh' : list Q).

Hypothesis Hf : Signal.f r = Some f'.
Hypothesis Hdf : Signal.df r = Some df'.
Hypothesis HswFT : Signal.swFT r = Some swFT'.
Hypothesis Hrh : all_finite (Signal.filter_rh f' df') = Ok rh'.
Hypothesis Hlen : length swFT' = length f'.
Hypothesis Hne : f' <> [].

(** The right-hand spectrum of the record. *)
Let swFTrh : list cplx :=
  map (fun p => cscale (fst p) (snd p)) (combine rh' swFT').

Lemma filter_swFTrh_result : Signal.filter_swFTrh r = Ok (rh', swFTrh).
Proof.
  unfold Signal.filter_swFTrh. rewrite Hf, Hdf, HswFT. cbn [getkey bind].
  rewrite Hrh. cbn [bind].
  rewrite (np_mul_same_length cscale rh' swFT').
  - reflexivity.
  - rewrite (all_finite_length _ Hrh). unfold Signal.filter_rh, Signal.filter_f_shifted.
    rewrite !length_map. symmetry. exact Hlen.
Qed.

Lemma swFTrh_length : length swFTrh = length f'.
Proof.
  unfold swFTrh. rewrite length_map, length_combine, (all_finite_length _ Hrh).
  unfold Signal.filter_rh, Signal.filter_f_shifted. rewrite !length_map. lia.
Qed.

(** What [filter] does on a record that holds a spectrum and an axis of
    one length, with a finite right-hand filter. *)
Lemma filter_result :
  exists k mag,
    nth_error (map cabs swFTrh) k = Some mag
    /\ Forall (fun x => (x <= mag)%Q) (map cabs swFTrh)
    /\ (forall q w, (q < k)%nat -> nth_error (map cabs swFTrh) q = Some w ->
                    (w < mag)%Q)
    /\ (k < length f')%nat
    /\ ((bw0 == 0)%Q -> Signal.filter bw0 order0 r = Raise ZeroDivisionError)
    /\ (~ (bw0 == 0)%Q ->
        exists r2 bp' swFTfilt',
          Signal.filter bw0 order0 r = Ok r2
          /\ bp' = map (bp_gain order0)
                       (map (fun x => ((x - nth k f' 0%Q) / bw0)%Q) f')
          /\ swFTfilt' = map (fun p => cscale (snd p) (fst p)) (combine swFTrh bp')
          /\ Signal.f0 r2 = Some (nth k f' 0%Q)
          /\ Signal.rh r2 = Some rh'
          /\ Signal.bp r2 = Some bp'
          /\ Signal.swFTfilt r2 = Some swFTfilt'
          /\ Signal.f00 r2
             = Some (np_fdiv
                       (Qsum (map (fun p => (fst p * snd p)%Q)
                                  (combine f' (map cabs swFTfilt'))))
                       (Qsum (map cabs swFTfilt')))
          /\ Signal.td r2 = Some ((5 # 4) / bw0)%Q
          /\ Signal.bw r2 = Some bw0
          /\ Signal.order r2 = Some order0
          /\ Signal.s r2 = Signal.s r
          /\ Signal.t r2 = Signal.t r
          /\ Signal.dt r2 = Signal.dt r
          /\ Signal.f r2 = Signal.f r).
Proof.
  pose proof swFTrh_length as Hl.
  assert (Hmne : map cabs swFTrh <> []).
  { intros Hnil. apply (f_equal (@length Q)) in Hnil.
    rewrite length_map, Hl in Hnil. destruct f'; [contradiction | discriminate Hnil]. }
  destruct (np_argmax_spec Hmne) as (k & mag & Harg & Hk & Hmax & Hfirst).
  assert (Hkl : (k < length f')%nat).
  { rewrite <- Hl, <- (length_map cabs). apply nth_error_Some. rewrite Hk. discriminate. }
  exists k, mag. split; [exact Hk|]. split; [exact Hmax|].
  split; [exact Hfirst|]. split; [exact Hkl|].
  assert (Hget : np_getitem f' (Z.of_nat k) = Ok (nth k f' 0%Q)).
  { apply np_getitem_nth; [lia|]. rewrite Nat2Z.id.
    apply nth_error_nth'. exact Hkl. }
  set (bp' := map (bp_gain order0)
                  (map (fun x => ((x - nth k f' 0%Q) / bw0)%Q) f')).
  assert (Hbp : length swFTrh = length bp').
  { unfold bp'. rewrite !length_map. exact Hl. }
  set (swFTfilt' := map (fun p => cscale (snd p) (fst p)) (combine swFTrh bp')).
  assert (Hfb : length f' = length (map cabs swFTfilt')).
  { unfold swFTfilt'. rewrite !length_map, length_combine. lia. }
  assert (Hpre :
            Signal.filter bw0 order0 r
            = bind (py_fdiv (5 # 4) bw0)
                   (fun td' =>
                      Ok {| Signal.s := Signal.s r; Signal.s_name := Signal.s_name r;
                            Signal.s_unit := Signal.s_unit r; Signal.dt := Signal.dt r;
                            Signal.t := Signal.t r;
                            Signal.s_original := Signal.s_original r;
                            Signal.t_original := Signal.t_original r;
                            Signal.w := Signal.w r; Signal.sw := Signal.sw r;
                            Signal.tw_actual := Signal.tw_actual r;
                            Signal.swFT := Signal.swFT r; Signal.f := Signal.f r;
                            Signal.df := Signal.df r;
                            Signal.bw := Some bw0; Signal.order := Some order0;
                            Signal.rh := Some rh';
                            Signal.f0 := Some (nth k f' 0%Q); Signal.bp := Some bp';
                            Signal.swFTfilt := Some swFTfilt';
                            Signal.f00 :=
                              Some (np_fdiv
                                      (Qsum (map (fun p => (fst p * snd p)%Q)
                                                 (combine f' (map cabs swFTfilt'))))
                                      (Qsum (map cabs swFTfilt')));
                            Signal.td := Some td';
                            Signal.z := Signal.z r; Signal.theta := Signal.theta r;
                            Signal.a := Signal.a r;
                            Signal.fit_freq := Signal.fit_freq r;
                            Signal.fit_time := Signal.fit_time r |})).
  { unfold Signal.filter. rewrite Hf, filter_swFTrh_result.
    cbn [getkey bind fst snd]. rewrite Harg. cbn [bind]. rewrite Hget. cbn [bind].
    fold bp'.
    rewrite (np_mul_same_length (fun c g => cscale g c) swFTrh bp' Hbp).
    cbn [bind]. fold swFTfilt'.
    rewrite (np_mul_same_length Qmult f' (map cabs swFTfilt') Hfb).
    cbn [bind]. reflexivity. }
  split.
  - intros Hz. rewrite Hpre. unfold py_fdiv.
    destruct (Qeq_bool bw0 0) eqn:E; [reflexivity|].
    apply Qeq_bool_neq in E. contradiction.
  - intros Hnz. rewrite Hpre, (py_fdiv_ok _ Hnz).
    cbn [bind]. eexists. exists bp', swFTfilt'. split; [reflexivity|].
    cbn [Signal.f0 Signal.rh Signal.bp Signal.swFTfilt Signal.td Signal.bw
         Signal.order Signal.s Signal.t Signal.dt Signal.f Signal.f00].
    repeat split.
Qed.

End FilterResult.

Section AfterFft.

Context `{NumLib}.

(** The record that [fft] returns for [dt > 0]: a spectrum and an axis of
    one length, at least two, and a right-hand filter that is finite, [0]
    where the frequency is not positive and [2] where it is. *)
Lemma after_fft (r r1 : Signal.signal) :
  Signal.fft r = Ok r1 ->
  (0 < Signal.dt r)%Q ->
  exists f' df' swFT' rh',
    Signal.f r1 = Some f'
    /\ Signal.df r1 = Some df'
    /\ Signal.swFT r1 = Some swFT'
    /\ length swFT' = length f'
    /\ (2 <= length f')%nat
    /\ all_finite (Signal.filter_rh f' df') = Ok rh'
    /\ length rh' = length f'
    /\ (forall i, (i < length f')%nat ->
          exists q, nth_error rh' i = Some q
                    /\ ((nth i f' 0 <= 0)%Q -> (q == 0)%Q)
                    /\ ((0 < nth i f' 0)%Q -> (q == 2)%Q))
    /\ Signal.dt r1 = Signal.dt r
    /\ Signal.s r1 = Signal.s r
    /\ Signal.t r1 = Signal.t r.
Proof.
  intros Hfft Hdt.
  destruct (fft_inversion r Hfft) as (sw0 & Hsw & Hlen & Hnz).
  destruct (fft_result r Hsw Hlen Hnz)
    as (r1' & Hok & HswFT & Hf & Hdf & Hdt1 & Hs1 & Ht1).
  rewrite Hfft in Hok. injection Hok as <-.
  set (n := Z.of_nat (length sw0)) in *.
  set (val := (1 / (inject_Z n * Signal.dt r))%Q) in *.
  set (g := fun k : Z => (inject_Z k * val)%Q) in *.
  set (f' := map g (arange (- (n / 2)) (n - n / 2))) in *.
  set (df' := (g (- (n / 2) + 1)%Z - g (- (n / 2) + 0)%Z)%Q) in *.
  assert (Hh : (0 <= n / 2)%Z) by (apply Z.div_pos; lia).
  assert (Hh2 : (2 * (n / 2) <= n)%Z).
  { pose proof (Z.div_mod n 2). pose proof (Z.mod_pos_bound n 2). lia. }
  assert (Hval : (0 < val)%Q).
  { unfold val. apply Qlt_shift_div_l.
    - apply Qmult_lt_0_compat; [|exact Hdt].
      change 0%Q with (inject_Z 0). rewrite <- Zlt_Qlt. lia.
    - lra. }
  assert (Hdfv : (df' == val)%Q).
  { unfold df', g. rewrite !inject_Z_plus. change (inject_Z 0) with 0%Q.
    change (inject_Z 1) with 1%Q. ring. }
  assert (Hfl : length f' = length sw0).
  { unfold f'. rewrite length_map, arange_length. lia. }
  assert (Hnth : forall i, (i < length f')%nat ->
            nth_error f' i = Some (g (- (n / 2) + Z.of_nat i)%Z)).
  { intros i Hi. unfold f'. rewrite nth_error_map, nth_error_arange by lia.
    reflexivity. }
  set (num := fun x : Q => (Qabs (x - df' / 2) + (x - df' / 2))%Q).
  set (den := fun x : Q => Qabs (x - df' / 2)).
  assert (Hrh : Signal.filter_rh f' df'
                = map (fun x => np_fdiv (num x) (den x)) f').
  { unfold Signal.filter_rh, Signal.filter_f_shifted. rewrite map_map. reflexivity. }
  assert (Hden : forall x, In x f' -> ~ (den x == 0)%Q).
  { intros x Hin. unfold f' in Hin. apply in_map_iff in Hin.
    destruct Hin as (k & <- & _).
    destruct (@rh_entry k val df' Hval Hdfv) as [Hnz' _]. exact Hnz'. }
  exists f', df', (fftshift (np_fft sw0)), (map (fun x => (num x / den x)%Q) f').
  split; [exact Hf|]. split; [exact Hdf|]. split; [exact HswFT|].
  split; [rewrite fftshift_length, np_fft_length, Hfl; reflexivity|].
  split; [lia|].
  split; [rewrite Hrh; apply all_finite_fdiv; exact Hden|].
  split; [apply length_map|].
  split; [|repeat split; assumption].
  intros i Hi.
  destruct (@rh_entry (- (n / 2) + Z.of_nat i)%Z val df' Hval Hdfv)
    as (Hnz' & q & Hq & H0 & H2).
  fold (g (- (n / 2) + Z.of_nat i)%Z) in Hnz', Hq, H0, H2.
  assert (Hx : nth i f' 0%Q = g (- (n / 2) + Z.of_nat i)%Z)
    by (apply nth_error_nth, Hnth, Hi).
  exists q. rewrite Hx. split; [|split; assumption].
  rewrite nth_error_map, (Hnth i Hi). cbn [option_map]. f_equal.
  unfold np_fdiv in Hq.
  destruct (Qeq_bool _ 0); [discriminate Hq|].
  injection Hq as <-. reflexivity.
Qed.

End AfterFft.

Lemma nth_error_combine_some {A B : Type} (l : list A) (l' : list B)
      (i : nat) (x : A) (y : B) :
  nth_error l i = Some x -> nth_error l' i = Some y ->
  nth_error (combine l l') i = Some (x, y).
Proof.
  revert l' i. induction l as [|u l IH]; intros l' i Hx Hy.
  - destruct i; discriminate Hx.
  - destruct l' as [|v l']; [destruct i; discriminate Hy|].
    destruct i as [|i]; cbn in *.
    + injection Hx as ->. injection Hy as ->. reflexivity.
    + apply IH; assumption.
Qed.

Section FilterProps.

Context `{NumLib}.

(** X4. After [fft] on a record with [dt > 0], [filter] fails only for a
    zero bandwidth, with [ZeroDivisionError]: the right-hand filter has no
    zero divisor, for an even and for an odd number of points.  For any
    other bandwidth it returns; the right-hand filter, the bandpass filter
    and the filtered spectrum have the length of the frequency axis, the
    carrier [f0] is one of the values of the axis, the delay is
    [td = 1.25/bw], and samples and time are as before. *)
Theorem filter_after_fft (r r1 : Signal.signal) (bw0 : Q) (order0 : Z) :
  Signal.fft r = Ok r1 ->
  (0 < Signal.dt r)%Q ->
  ((bw0 == 0)%Q -> Signal.filter bw0 order0 r1 = Raise ZeroDivisionError)
  /\ (~ (bw0 == 0)%Q ->
      exists r2 f' rh' bp' swFTfilt' f0',
        Signal.filter bw0 order0 r1 = Ok r2
        /\ Signal.f r2 = Some f'
        /\ Signal.rh r2 = Some rh'
        /\ Signal.bp r2 = Some bp'
        /\ Signal.swFTfilt r2 = Some swFTfilt'
        /\ Signal.f0 r2 = Some f0'
        /\ length rh' = length f'
        /\ length bp' = length f'
        /\ length swFTfilt' = length f'
        /\ In f0' f'
        /\ Signal.td r2 = Some ((5 # 4) / bw0)%Q
        /\ Signal.s r2 = Signal.s r
        /\ Signal.t r2 = Signal.t r).
Proof.
  intros Hfft Hdt.
  destruct (after_fft r Hfft Hdt)
    as (f' & df' & swFT' & rh' & Hf & Hdf & HswFT & Hlen & Hn & Hrh & Hrhl & _
        & _ & Hs1 & Ht1).
  assert (Hne : f' <> []) by (destruct f'; [cbn in Hn; lia | discriminate]).
  destruct (@filter_result _ r1 bw0 order0 f' df' swFT' rh' Hf Hdf HswFT Hrh Hlen Hne)
    as (k & mag & _ & _ & _ & Hk & Hzero & Hok).
  split; [exact Hzero|].
  intros Hbw.
  destruct (Hok Hbw)
    as (r2 & bp' & swFTfilt' & Hfil & Hbp & Hsf & Hf0 & Hrh2 & Hbp2 & Hsf2 & _
        & Htd & _ & _ & Hs2 & Ht2 & _ & Hf2).
  exists r2, f', rh', bp', swFTfilt', (nth k f' 0%Q).
  split; [exact Hfil|]. split; [rewrite Hf2; exact Hf|].
  split; [exact Hrh2|]. split; [exact Hbp2|]. split; [exact Hsf2|].
  split; [exact Hf0|]. split; [exact Hrhl|].
  assert (Hbpl : length bp' = length f') by (rewrite Hbp, !length_map; reflexivity).
  split; [exact Hbpl|].
  split.
  { rewrite Hsf, length_map, length_combine, length_map, length_combine, Hbpl, Hrhl.
    lia. }
  split; [apply nth_In; exact Hk|].
  split; [exact Htd|]. split; [rewrite Hs2; exact Hs1 | rewrite Ht2; exact Ht1].
Qed.

(** X5. After [fft] on a record with [dt > 0], when [filter] returns, the
    carrier [f0] is the frequency of a bin whose spectrum is at least as
    large in modulus as that of every bin of positive frequency; and if
    some bin of positive frequency has a spectrum other than zero, [f0] is
    a positive frequency. *)
Theorem filter_carrier_is_peak
    (r r1 r2 : Signal.signal) (bw0 : Q) (order0 : Z)
    (f' : list Q) (swFT' : list cplx) :
  Signal.fft r = Ok r1 ->
  (0 < Signal.dt r)%Q ->
  Signal.filter bw0 order0 r1 = Ok r2 ->
  Signal.f r1 = Some f' ->
  Signal.swFT r1 = Some swFT' ->
  exists k ck,
    (k < length f')%nat
    /\ Signal.f0 r2 = Some (nth k f' 0%Q)
    /\ nth_error swFT' k = Some ck
    /\ (forall j c, nth_error swFT' j = Some c -> (0 < nth j f' 0)%Q ->
                    (cabs c <= cabs ck)%Q)
    /\ ((exists j c, nth_error swFT' j = Some c /\ (0 < nth j f' 0)%Q
                     /\ (0 < cabs c)%Q) ->
        (0 < nth k f' 0)%Q).
Proof.
  intros Hfft Hdt Hfil Hf HswFT.
  destruct (after_fft r Hfft Hdt)
    as (f'' & df' & swFT'' & rh' & Hf' & Hdf & HswFT' & Hlen & Hn & Hrh & Hrhl
        & Hmask & _).
  rewrite Hf in Hf'. injection Hf' as <-.
  rewrite HswFT in HswFT'. injection HswFT' as <-.
  assert (Hne : f' <> []) by (destruct f'; [cbn in Hn; lia | discriminate]).
  destruct (@filter_result _ r1 bw0 order0 f' df' swFT' rh' Hf Hdf HswFT Hrh Hlen Hne)
    as (k & mag & Hmag & Hmax & _ & Hk & Hzero & Hok).
  assert (Hbw : ~ (bw0 == 0)%Q).
  { intros Hz. rewrite (Hzero Hz) in Hfil. discriminate Hfil. }
  destruct (Hok Hbw) as (r2' & bp' & swFTfilt' & Hfil' & _ & _ & Hf0 & _).
  rewrite Hfil in Hfil'. injection Hfil' as <-.
  set (swFTrh := map (fun p => cscale (fst p) (snd p)) (combine rh' swFT')) in *.
  (* the modulus of the right-hand spectrum at an index *)
  assert (Hentry : forall j c, nth_error swFT' j = Some c ->
            exists q, nth_error (map cabs swFTrh) j = Some (cabs (cscale q c))
                      /\ ((nth j f' 0 <= 0)%Q -> (q == 0)%Q)
                      /\ ((0 < nth j f' 0)%Q -> (q == 2)%Q)).
  { intros j c Hc.
    assert (Hj : (j < length f')%nat).
    { rewrite <- Hlen. apply nth_error_Some. rewrite Hc. discriminate. }
    destruct (Hmask j Hj) as (q & Hq & H0 & H2).
    exists q. split; [|split; assumption].
    unfold swFTrh. rewrite !nth_error_map.
    rewrite (nth_error_combine_some _ _ _ Hq Hc). reflexivity. }
  destruct (nth_error swFT' k) as [ck|] eqn:Hck.
  2:{ apply nth_error_None in Hck. lia. }
  destruct (Hentry k ck Hck) as (qk & Hqk & Hk0 & Hk2).
  rewrite Hmag in Hqk. injection Hqk as Hmagk.
  assert (Hmagv : (mag == Qabs qk * cabs ck)%Q).
  { rewrite Hmagk. apply cabs_cscale. }
  pose proof (cabs_nonneg ck) as Hck0.
  assert (Hpos : forall j c, nth_error swFT' j = Some c -> (0 < nth j f' 0)%Q ->
            (2 * cabs c <= mag)%Q).
  { intros j c Hc Hfj.
    destruct (Hentry j c Hc) as (q & Hq & _ & H2).
    rewrite Forall_forall in Hmax.
    pose proof (Hmax _ (nth_error_In _ _ Hq)) as Hle. cbn beta in Hle.
    rewrite cabs_cscale, (H2 Hfj) in Hle. exact Hle. }
  exists k, ck. split; [exact Hk|]. split; [exact Hf0|]. split; [exact Hck|].
  split.
  - intros j c Hc Hfj. pose proof (Hpos j c Hc Hfj) as Hle.
    pose proof (cabs_nonneg c) as Hc0.
    destruct (Qlt_le_dec 0 (nth k f' 0)) as [Hfk|Hfk].
    + rewrite Hmagv, (Hk2 Hfk) in Hle. change (Qabs 2) with 2%Q in Hle. lra.
    + rewrite Hmagv, (Hk0 Hfk) in Hle. change (Qabs 0) with 0%Q in Hle. lra.
  - intros (j & c & Hc & Hfj & Hcpos).
    pose proof (Hpos j c Hc Hfj) as Hle.
    destruct (Qlt_le_dec 0 (nth k f' 0)) as [Hfk|Hfk]; [exact Hfk|].
    rewrite Hmagv, (Hk0 Hfk) in Hle. change (Qabs 0) with 0%Q in Hle. lra.
Qed.

End FilterProps.

(** ** The bandpass filter *)

Lemma Qabs_zero_iff (x : Q) : (Qabs x == 0)%Q <-> (x == 0)%Q.
Proof.
  split.
  - intros Ha. destruct (Qlt_le_dec x 0) as [Hx|Hx].
    + rewrite (Qabs_neg x) in Ha by lra. lra.
    + rewrite (Qabs_pos x Hx) in Ha. exact Ha.
  - intros ->. reflexivity.
Qed.

Lemma Qeq_bool_Qabs (x y : Q) :
  (Qabs x == Qabs y)%Q -> Qeq_bool x 0 = Qeq_bool y 0.
Proof.
  intros Ha.
  destruct (Qeq_bool x 0) eqn:Ex, (Qeq_bool y 0) eqn:Ey; try reflexivity.
  - apply Qeq_bool_eq in Ex. apply Qeq_bool_neq in Ey. exfalso. apply Ey.
    apply Qabs_zero_iff. rewrite <- Ha. apply Qabs_zero_iff. exact Ex.
  - apply Qeq_bool_neq in Ex. apply Qeq_bool_eq in Ey. exfalso. apply Ex.
    apply Qabs_zero_iff. rewrite Ha. apply Qabs_zero_iff. exact Ey.
Qed.

(** The gain depends on the distance from the carrier only. *)
Lemma bp_gain_abs (order0 : Z) (x y : Q) :
  (Qabs x == Qabs y)%Q -> (bp_gain order0 x == bp_gain order0 y)%Q.
Proof.
  intros Ha. unfold bp_gain. rewrite (Qeq_bool_Qabs x y Ha).
  destruct ((order0 <? 0)%Z && Qeq_bool y 0)%bool; [reflexivity|].
  rewrite Ha. reflexivity.
Qed.

Lemma bp_gain_bounds (order0 : Z) (x : Q) :
  (0 <= order0)%Z -> (0 < bp_gain order0 x <= 1)%Q.
Proof.
  intros Ho. unfold bp_gain.
  destruct (Z.ltb_spec order0 0); [lia|]. cbn [andb].
  pose proof (Qpower_0_le (Qabs x) order0 (Qabs_nonneg x)) as Hp.
  split.
  - apply Qlt_shift_div_l; lra.
  - apply Qle_shift_div_r; lra.
Qed.

Lemma bp_gain_at_carrier (order0 : Z) (x : Q) :
  (0 < order0)%Z -> (x == 0)%Q -> (bp_gain order0 x == 1)%Q.
Proof.
  intros Ho Hx. unfold bp_gain.
  destruct (Z.ltb_spec order0 0); [lia|]. cbn [andb].
  rewrite Hx. change (Qabs 0) with 0%Q. rewrite Qpower_0 by lia. reflexivity.
Qed.

Lemma bp_gain_at_bandwidth (order0 : Z) (x : Q) :
  (Qabs x == 1)%Q -> (bp_gain order0 x == 1 # 2)%Q.
Proof.
  intros Hx. unfold bp_gain.
  destruct (Qeq_bool x 0) eqn:E.
  - apply Qeq_bool_eq in E. rewrite E in Hx. discriminate Hx.
  - rewrite andb_false_r, Hx, Qpower_1. reflexivity.
Qed.

Section BandpassProps.

Context `{NumLib}.

(** What a call of [filter] that returned has read and written. *)
Lemma filter_inversion (r r2 : Signal.signal) (bw0 : Q) (order0 : Z) :
  Signal.filter bw0 order0 r = Ok r2 ->
  exists f' f0',
    Signal.f r = Some f'
    /\ In f0' f'
    /\ ~ (bw0 == 0)%Q
    /\ Signal.f0 r2 = Some f0'
    /\ Signal.bp r2
       = Some (map (bp_gain order0) (map (fun x => ((x - f0') / bw0)%Q) f'))
    /\ Signal.td r2 = Some ((5 # 4) / bw0)%Q
    /\ Signal.dt r2 = Signal.dt r
    /\ Signal.s r2 = Signal.s r
    /\ Signal.t r2 = Signal.t r
    /\ Signal.z r2 = Signal.z r
    /\ Signal.theta r2 = Signal.theta r
    /\ Signal.a r2 = Signal.a r.
Proof.
  unfold Signal.filter. intros Hok.
  inv_bind Hok. inv_bind Hok. inv_bind Hok. inv_bind Hok. inv_bind Hok.
  inv_bind Hok.
  destruct (Signal.f r) as [f'|] eqn:Hf; [|discriminate E].
  cbn [getkey] in E. injection E as <-.
  unfold py_fdiv in Hok.
  destruct (Qeq_bool bw0 0) eqn:Ebw; [discriminate Hok|].
  apply Qeq_bool_neq in Ebw. cbn [bind] in Hok. inv_ok Hok.
  exists f', a2. split; [reflexivity|]. split.
  { unfold np_getitem in E2.
    destruct ((_ <? 0)%Z || _)%bool; [discriminate E2|].
    destruct (nth_error f' _) as [v|] eqn:Hv; [|discriminate E2].
    injection E2 as <-. eapply nth_error_In. exact Hv. }
  split; [exact Ebw|].
  cbn [Signal.f0 Signal.bp Signal.td Signal.dt Signal.s Signal.t Signal.z
       Signal.theta Signal.a].
  repeat split.
Qed.


End BandpassProps.

(** ** The moment estimate of the carrier *)

Lemma nth_error_combine_inv {A B : Type} (l : list A) (l' : list B)
      (i : nat) (x : A) (y : B) :
  nth_error (combine l l') i = Some (x, y) ->
  nth_error l i = Some x /\ nth_error l' i = Some y.
Proof.
  revert l' i. induction l as [|u l IH]; intros l' i Hxy.
  - destruct i; discriminate Hxy.
  - destruct l' as [|v l']; [destruct i; discriminate Hxy|].
    destruct i as [|i]; cbn in *.
    + injection Hxy as -> ->. split; reflexivity.
    + apply IH. exact Hxy.
Qed.

Lemma nth_error_map_inv {A B : Type} (g : A -> B) (l : list A) (i : nat) (y : B) :
  nth_error (map g l) i = Some y ->
  exists x, nth_error l i = Some x /\ y = g x.
Proof.
  rewrite nth_error_map. destruct (nth_error l i) as [x|]; [|discriminate].
  cbn. intros Hy. injection Hy as <-. exists x. split; reflexivity.
Qed.

Lemma Forall2_of_nth_error {A B : Type} (R : A -> B -> Prop)
      (l : list A) (l' : list B) :
  length l = length l' ->
  (forall i x y, nth_error l i = Some x -> nth_error l' i = Some y -> R x y) ->
  Forall2 R l l'.
Proof.
  revert l'. induction l as [|x l IH]; intros [|y l'] Hlen HR;
    try discriminate Hlen; constructor.
  - apply (HR 0%nat); reflexivity.
  - apply IH; [cbn in Hlen; lia|].
    intros i u v Hu Hv. apply (HR (S i)); assumption.
Qed.

(** A mean of frequencies with weights that are not negative, and zero
    where the frequency is not positive: the weighted sum is positive as
    soon as the sum of the weights is, and it is at most [hi] times the sum
    of the weights when every frequency is at most [hi]. *)
Lemma weighted_sum_bounds (fs ws : list Q) (hi : Q) :
  Forall2 (fun x w => (0 <= w)%Q /\ ((x <= 0)%Q -> (w == 0)%Q)) fs ws ->
  Forall (fun x => (x <= hi)%Q) fs ->
  let num := Qsum (map (fun p => (fst p * snd p)%Q) (combine fs ws)) in
  (0 <= Qsum ws)%Q
  /\ (0 <= num)%Q
  /\ ((0 < Qsum ws)%Q -> (0 < num)%Q)
  /\ (num <= hi * Qsum ws)%Q.
Proof.
  induction 1 as [|x w fs ws [Hw Hx] Hrest IH]; intros Hhi.
  - cbn. repeat split; try lra.
  - inversion Hhi as [|? ? Hxhi Hhi']; subst.
    destruct (IH Hhi') as (Hs & Hn & Hp & Hb).
    cbn [combine map Qsum fold_right fst snd].
    fold (Qsum ws).
    fold (Qsum (map (fun p : Q * Q => (fst p * snd p)%Q) (combine fs ws))).
    set (num := Qsum (map (fun p : Q * Q => (fst p * snd p)%Q) (combine fs ws))) in *.
    assert (Hterm : (0 <= x * w)%Q).
    { destruct (Qlt_le_dec 0 x) as [Hxp|Hxn].
      - apply Qmult_le_0_compat; lra.
      - rewrite (Hx Hxn). lra. }
    assert (Htermhi : (x * w <= hi * w)%Q).
    { apply Qmult_le_compat_r; assumption. }
    split; [lra|]. split; [lra|]. split; [|lra].
    intros Hsum.
    destruct (Qlt_le_dec 0 w) as [Hwp|Hwn].
    + assert (Hxp : (0 < x)%Q).
      { destruct (Qlt_le_dec 0 x) as [Hxp|Hxn]; [exact Hxp|].
        rewrite (Hx Hxn) in Hwp. lra. }
      assert (Hxw : (0 < x * w)%Q) by (apply Qmult_lt_0_compat; assumption).
      lra.
    + assert (Hw0 : (w == 0)%Q) by lra.
      assert (Hrestpos : (0 < Qsum ws)%Q) by lra.
      pose proof (Hp Hrestpos). lra.
Qed.

Section MomentProps.

Context `{NumLib}.

(** X7. After [fft] on a record with [dt > 0], when [filter] returns and
    the moment estimate [f00] is finite, it is a positive frequency, and it
    is no greater than any bound of the frequency axis: the weights are
    zero on the bins whose frequency is not positive. *)
Theorem filter_moment_is_positive
    (r r1 r2 : Signal.signal) (bw0 : Q) (order0 : Z) (f' : list Q) (q : Q) :
  Signal.fft r = Ok r1 ->
  (0 < Signal.dt r)%Q ->
  Signal.filter bw0 order0 r1 = Ok r2 ->
  Signal.f r1 = Some f' ->
  Signal.f00 r2 = Some (Some q) ->
  (0 < q)%Q
  /\ forall hi, Forall (fun x => (x <= hi)%Q) f' -> (q <= hi)%Q.
Proof.
  intros Hfft Hdt Hfil Hf Hf00.
  destruct (after_fft r Hfft Hdt)
    as (f'' & df' & swFT' & rh' & Hf' & Hdf & HswFT & Hlen & Hn & Hrh & Hrhl
        & Hmask & _).
  rewrite Hf in Hf'. injection Hf' as <-.
  assert (Hne : f' <> []) by (destruct f'; [cbn in Hn; lia | discriminate]).
  destruct (@filter_result _ r1 bw0 order0 f' df' swFT' rh' Hf Hdf HswFT Hrh Hlen Hne)
    as (k & mag & _ & _ & _ & Hk & Hzero & Hok).
  assert (Hbw : ~ (bw0 == 0)%Q).
  { intros Hz. rewrite (Hzero Hz) in Hfil. discriminate Hfil. }
  destruct (Hok Hbw)
    as (r2' & bp' & swFTfilt' & Hfil' & Hbp & Hsf & _ & _ & _ & _ & Hmom & _).
  rewrite Hfil in Hfil'. injection Hfil' as <-.
  rewrite Hf00 in Hmom. injection Hmom as Hq.
  set (ws := map cabs swFTfilt') in *.
  assert (Hwl : length f' = length ws).
  { unfold ws. rewrite Hsf, !length_map, length_combine, length_map,
      length_combine, Hbp, !length_map, Hrhl. lia. }
  assert (Hrel : Forall2 (fun x w => (0 <= w)%Q /\ ((x <= 0)%Q -> (w == 0)%Q)) f' ws).
  { apply Forall2_of_nth_error; [exact Hwl|].
    intros i x w Hx Hw. unfold ws in Hw.
    apply nth_error_map_inv in Hw. destruct Hw as (c & Hc & ->).
    split; [apply cabs_nonneg|].
    intros Hx0. rewrite Hsf in Hc.
    apply nth_error_map_inv in Hc. destruct Hc as ([c1 g1] & Hc1 & ->).
    apply nth_error_combine_inv in Hc1. destruct Hc1 as [Hc1 _].
    apply nth_error_map_inv in Hc1. destruct Hc1 as ([q1 s1] & Hqs & ->).
    apply nth_error_combine_inv in Hqs. destruct Hqs as [Hq1 _].
    assert (Hi : (i < length f')%nat).
    { apply nth_error_Some. rewrite Hx. discriminate. }
    destruct (Hmask i Hi) as (q0 & Hq0 & Hzero0 & _).
    rewrite Hq1 in Hq0. injection Hq0 as <-.
    rewrite (nth_error_nth _ _ 0%Q Hx) in Hzero0.
    cbn [fst snd]. rewrite !cabs_cscale, (Hzero0 Hx0).
    change (Qabs 0) with 0%Q. ring. }
  unfold np_fdiv in Hq.
  destruct (Qeq_bool (Qsum ws) 0) eqn:E; [discriminate Hq|].
  apply Qeq_bool_neq in E. injection Hq as Hq.
  assert (Hax : exists hi0, Forall (fun x => (x <= hi0)%Q) f').
  { clear. induction f' as [|x l [hi0 IH]].
    - exists 0%Q. constructor.
    - exists (Qabs x + Qabs hi0)%Q.
      pose proof (Qle_Qabs x). pose proof (Qle_Qabs hi0).
      pose proof (Qabs_nonneg x). pose proof (Qabs_nonneg hi0).
      constructor; [lra|].
      eapply Forall_impl; [|exact IH]. cbn beta. intros y Hy. lra. }
  destruct Hax as [hi0 Hhi0].
  destruct (weighted_sum_bounds Hrel Hhi0) as (Hs & _ & Hp & _).
  assert (Hspos : (0 < Qsum ws)%Q).
  { destruct (Qlt_le_dec 0 (Qsum ws)) as [Hlt|Hle]; [exact Hlt|].
    exfalso. apply E. lra. }
  split.
  - rewrite Hq. apply Qlt_shift_div_l; [exact Hspos|].
    rewrite Qmult_0_l. apply Hp. exact Hspos.
  - intros hi Hhi.
    destruct (weighted_sum_bounds Hrel Hhi) as (_ & _ & _ & Hb).
    rewrite Hq. apply Qle_shift_div_r; [exact Hspos | exact Hb].
Qed.

End MomentProps.

(** ** What each stage returns *)

Lemma binarate_range_bounds (mode : string) (n : Z) :
  (0 < n)%Z ->
  (0 <= fst (Signal.binarate_range mode n))%Z
  /\ (fst (Signal.binarate_range mode n) <= snd (Signal.binarate_range mode n))%Z
  /\ (snd (Signal.binarate_range mode n) <= n)%Z.
Proof.
  intros Hn. unfold Signal.binarate_range, Signal.binarate_n2.
  pose proof (Z.log2_spec n Hn) as [Hlo _].
  assert (0 < 2 ^ Z.log2 n)%Z by (apply Z.pow_pos_nonneg; [lia | apply Z.log2_nonneg]).
  pose proof (Z.div_mod (n - 2 ^ Z.log2 n) 2).
  pose proof (Z.mod_pos_bound (n - 2 ^ Z.log2 n) 2).
  destruct (mode =? "middle")%string; cbn [fst snd]; [lia|].
  destruct (mode =? "start")%string; cbn [fst snd]; [lia|].
  destruct (mode =? "end")%string; cbn [fst snd]; lia.
Qed.

Lemma py_slice_short {A : Type} (l : list A) (id : Z) :
  (1 <= id)%Z -> (Z.of_nat (length l) <= 2 * id)%Z ->
  py_slice l (Some id) (Some (- id)%Z) = [].
Proof.
  intros H1 H2. unfold py_slice, slice_index.
  destruct (Z.ltb_spec id 0); [lia|].
  destruct (Z.ltb_spec (- id) 0); [|lia].
  replace (Z.to_nat _) with 0%nat by lia. reflexivity.
Qed.

Section StageResults.

Context `{NumLib}.

Lemma binarate_returns (mode : string) (r : Signal.signal) :
  (1 <= length (Signal.s r))%nat ->
  length (Signal.t r) = length (Signal.s r) ->
  let n := Z.of_nat (length (Signal.s r)) in
  let n_start := fst (Signal.binarate_range mode n) in
  let n_stop := snd (Signal.binarate_range mode n) in
  exists r',
    Signal.binarate mode r = Ok r'
    /\ Signal.s r' = firstn (Z.to_nat (n_stop - n_start))
                            (skipn (Z.to_nat n_start) (Signal.s r))
    /\ Signal.t r' = firstn (Z.to_nat (n_stop - n_start))
                            (skipn (Z.to_nat n_start) (Signal.t r))
    /\ Signal.s_original r' = Some (Signal.s r)
    /\ Signal.t_original r' = Some (Signal.t r)
    /\ Signal.dt r' = Signal.dt r.
Proof.
  intros Hn Ht n n_start n_stop.
  destruct (@binarate_range_bounds mode n) as (H0 & H1 & H2); [lia|].
  fold n_start n_stop in H0, H1, H2.
  unfold Signal.binarate. fold n.
  destruct (Z.leb_spec n 0) as [Hz|Hz]; [lia|].
  rewrite (surjective_pairing (Signal.binarate_range mode n)).
  fold n_start n_stop.
  rewrite (np_take_arange (Signal.s r)) by (fold n; lia).
  rewrite (np_take_arange (Signal.t r)) by (try rewrite Ht; fold n; lia).
  cbn [bind]. eexists. split; [reflexivity|].
  cbn [Signal.s Signal.t Signal.s_original Signal.t_original Signal.dt].
  repeat split.
Qed.

Lemma window_returns (tw : Q) (r : Signal.signal) :
  ~ (Signal.dt r == 0)%Q ->
  let n := Z.of_nat (length (Signal.s r)) in
  let ww := Qceiling (tw / Signal.dt r) in
  (0 <= ww)%Z ->
  (2 * ww <= n)%Z ->
  exists r' wl,
    Signal.window tw r = Ok r'
    /\ wl = firstn (Z.to_nat ww) (blackman (2 * ww))
            ++ repeat 1%Q (Z.to_nat (n - 2 * ww))
            ++ skipn (Z.to_nat ww) (blackman (2 * ww))
    /\ length wl = length (Signal.s r)
    /\ Signal.w r' = Some wl
    /\ Signal.sw r'
       = Some (map (fun p => (fst p * snd p)%Q) (combine wl (Signal.s r)))
    /\ Signal.tw_actual r' = Some (inject_Z ww * Signal.dt r)%Q
    /\ Signal.s r' = Signal.s r
    /\ Signal.t r' = Signal.t r
    /\ Signal.dt r' = Signal.dt r.
Proof.
  intros Hdt n ww Hww Hle.
  assert (Hq : py_fdiv (1 * tw) (1 * Signal.dt r)
               = Ok ((1 * tw) / (1 * Signal.dt r))%Q).
  { apply py_fdiv_ok. intros Hz. apply Hdt. lra. }
  assert (Hc : Qceiling ((1 * tw) / (1 * Signal.dt r)) = ww).
  { unfold ww. apply Qceiling_comp. field. exact Hdt. }
  unfold Signal.window. rewrite Hq. cbn [bind]. rewrite Hc. fold n.
  unfold np_ones.
  destruct (Z.ltb_spec (n - 2 * ww) 0); [lia|]. cbn [bind].
  pose proof (blackman_length (2 * ww)) as Hbl.
  rewrite py_slice_prefix by lia.
  rewrite py_slice_second_half by lia.
  set (wl := firstn (Z.to_nat ww) (blackman (2 * ww))
             ++ repeat 1%Q (Z.to_nat (n - 2 * ww))
             ++ skipn (Z.to_nat ww) (blackman (2 * ww))).
  assert (Hwl : length wl = length (Signal.s r)).
  { unfold wl. rewrite !length_app, repeat_length, length_firstn, length_skipn. lia. }
  rewrite (np_mul_same_length Qmult wl (Signal.s r) Hwl). cbn [bind].
  eexists. exists wl. split; [reflexivity|].
  cbn [Signal.tw_actual Signal.w Signal.sw Signal.s Signal.t Signal.dt].
  repeat split. exact Hwl.
Qed.

Lemma ifft_returns (r : Signal.signal) (x : list cplx) :
  Signal.swFTfilt r = Some x ->
  x <> [] ->
  exists r',
    Signal.ifft r = Ok r'
    /\ Signal.z r' = Some (np_ifft (fftshift x))
    /\ Signal.theta r'
       = Some (map (fun y => (y / (2 * np_pi))%Q)
                   (np_unwrap (map np_angle (np_ifft (fftshift x)))))
    /\ Signal.a r' = Some (map cabs (np_ifft (fftshift x)))
    /\ Signal.td r' = Signal.td r
    /\ Signal.dt r' = Signal.dt r
    /\ Signal.s r' = Signal.s r
    /\ Signal.t r' = Signal.t r.
Proof.
  intros Hx Hne. unfold Signal.ifft. rewrite Hx. cbn [getkey bind].
  destruct x as [|c x]; [contradiction|].
  eexists. split; [reflexivity|].
  cbn [Signal.z Signal.theta Signal.a Signal.td Signal.dt Signal.s Signal.t].
  repeat split.
Qed.

Lemma trim_returns (r : Signal.signal)
      (td0 : Q) (z0 : list cplx) (theta0 a0 : list Q) :
  Signal.td r = Some td0 ->
  Signal.z r = Some z0 ->
  Signal.theta r = Some theta0 ->
  Signal.a r = Some a0 ->
  ~ (Signal.dt r == 0)%Q ->
  let id := py_int (td0 / Signal.dt r) in
  exists r',
    Signal.trim r = Ok r'
    /\ Signal.z r' = Some (py_slice z0 (Some id) (Some (- id)%Z))
    /\ Signal.theta r' = Some (py_slice theta0 (Some id) (Some (- id)%Z))
    /\ Signal.a r' = Some (py_slice a0 (Some id) (Some (- id)%Z))
    /\ Signal.t r' = py_slice (Signal.t r) (Some id) (Some (- id)%Z)
    /\ Signal.td r' = Signal.td r
    /\ Signal.dt r' = Signal.dt r
    /\ Signal.s r' = Signal.s r.
Proof.
  intros Htd Hz Hth Ha Hdt id.
  unfold Signal.trim. rewrite (@trim_id_ok _ r td0 Htd Hdt). fold id.
  rewrite Hz, Hth, Ha. cbn [getkey bind].
  eexists. split; [reflexivity|].
  cbn [Signal.z Signal.theta Signal.a Signal.t Signal.td Signal.dt Signal.s].
  repeat split.
Qed.

End StageResults.

(** ** The inverse transform *)

Section IfftProps.

Context `{NumLib}.

(** X8. [ifft] returns exactly when the filtered spectrum is there and is
    not empty (without it, [KeyError]; on an empty one, [ValueError]).
    When it returns, the complex signal, the phase and the amplitude have
    each the length of the filtered spectrum, no amplitude is negative,
    and samples and time are as before. *)
Theorem ifft_outputs (r : Signal.signal) :
  ((exists r', Signal.ifft r = Ok r')
   <-> exists x, Signal.swFTfilt r = Some x /\ x <> [])
  /\ (Signal.swFTfilt r = None -> Signal.ifft r = Raise KeyError)
  /\ (Signal.swFTfilt r = Some [] -> Signal.ifft r = Raise ValueError)
  /\ forall r', Signal.ifft r = Ok r' ->
       exists x z' theta' a',
         Signal.swFTfilt r = Some x
         /\ Signal.z r' = Some z'
         /\ Signal.theta r' = Some theta'
         /\ Signal.a r' = Some a'
         /\ length z' = length x
         /\ length theta' = length x
         /\ length a' = length x
         /\ Forall (fun v => (0 <= v)%Q) a'
         /\ Signal.s r' = Signal.s r
         /\ Signal.t r' = Signal.t r.
Proof.
  assert (Hinv : forall r', Signal.ifft r = Ok r' ->
            exists x, Signal.swFTfilt r = Some x /\ x <> []).
  { intros r' Hok. unfold Signal.ifft in Hok.
    destruct (Signal.swFTfilt r) as [x|]; [|discriminate Hok].
    exists x. split; [reflexivity|]. intros ->. discriminate Hok. }
  split; [|split; [|split]].
  - split.
    + intros [r' Hok]. exact (Hinv r' Hok).
    + intros (x & Hx & Hne). destruct (ifft_returns r Hx Hne) as (r' & Hok & _).
      exists r'. exact Hok.
  - intros Hx. unfold Signal.ifft. rewrite Hx. reflexivity.
  - intros Hx. unfold Signal.ifft. rewrite Hx. reflexivity.
  - intros r' Hok. destruct (Hinv r' Hok) as (x & Hx & Hne).
    destruct (ifft_returns r Hx Hne)
      as (r'' & Hok' & Hz & Hth & Ha & _ & _ & Hs & Ht).
    rewrite Hok in Hok'. injection Hok' as <-.
    eexists x, _, _, _. split; [exact Hx|]. split; [exact Hz|].
    split; [exact Hth|]. split; [exact Ha|].
    split; [rewrite np_ifft_length, fftshift_length; reflexivity|].
    split; [rewrite length_map, np_unwrap_length, length_map, np_ifft_length,
              fftshift_length; reflexivity|].
    split; [rewrite length_map, np_ifft_length, fftshift_length; reflexivity|].
    split; [apply Forall_map, Forall_forall; intros c _; apply cabs_nonneg|].
    split; assumption.
Qed.

End IfftProps.

(** ** Trimming, further *)

Lemma drop_both_ends_twice {A : Type} (k : nat) (l : list A) :
  (4 * k <= length l)%nat ->
  drop_both_ends k (drop_both_ends k l) = drop_both_ends (2 * k) l.
Proof.
  intros Hk. unfold drop_both_ends.
  rewrite length_firstn, length_skipn.
  rewrite skipn_firstn_comm, firstn_firstn, skipn_skipn.
  f_equal; [lia | f_equal; lia].
Qed.

Section TrimFurther.

Context `{NumLib}.

Variable r : Signal.signal.
Variables (td0 : Q) (z0 : list cplx) (theta0 a0 : list Q).
Hypothesis Htd : Signal.td r = Some td0.
Hypothesis Hz : Signal.z r = Some z0.
Hypothesis Htheta : Signal.theta r = Some theta0.
Hypothesis Ha : Signal.a r = Some a0.
Hypothesis Hdt : ~ (Signal.dt r == 0)%Q.

(** X9. When [idx = int(td/dt)] is at least one and no array has more
    than [2*idx] entries, [trim] does not fail: it returns a record in
    which the complex signal, the phase, the amplitude and the time are
    all empty, and the samples are as before. *)
Theorem trim_empties_short_arrays :
  let idx := py_int (td0 / Signal.dt r) in
  (1 <= idx)%Z ->
  (Z.of_nat (length z0) <= 2 * idx)%Z ->
  (Z.of_nat (length theta0) <= 2 * idx)%Z ->
  (Z.of_nat (length a0) <= 2 * idx)%Z ->
  (Z.of_nat (length (Signal.t r)) <= 2 * idx)%Z ->
  exists r',
    Signal.trim r = Ok r'
    /\ Signal.z r' = Some []
    /\ Signal.theta r' = Some []
    /\ Signal.a r' = Some []
    /\ Signal.t r' = []
    /\ Signal.s r' = Signal.s r.
Proof.
  intros idx H1 Hlz Hlth Hla Hlt.
  destruct (trim_returns r Htd Hz Htheta Ha Hdt)
    as (r' & Hok & Hz' & Hth' & Ha' & Ht' & _ & _ & Hs').
  fold idx in Hz', Hth', Ha', Ht'.
  rewrite (@py_slice_short _ z0) in Hz' by assumption.
  rewrite (@py_slice_short _ theta0) in Hth' by assumption.
  rewrite (@py_slice_short _ a0) in Ha' by assumption.
  rewrite (@py_slice_short _ (Signal.t r)) in Ht' by assumption.
  exists r'. repeat split; assumption.
Qed.


End TrimFurther.

(** ** The chunked fit, further *)

Lemma py_round_zero_iff (q : Q) :
  py_round q = 0%Z <-> (- (1 # 2) < q < 1 # 2)%Q.
Proof.
  unfold py_round. destruct (Qle_bool 0 q) eqn:E.
  - apply Qle_bool_iff in E. rewrite Qfloor_zero_iff. split; intros; lra.
  - apply Qle_bool_false in E. unfold Qceiling.
    rewrite Z.eq_opp_l. change (- 0)%Z with 0%Z. rewrite Qfloor_zero_iff.
    split; intros; lra.
Qed.

(** The divisor of the slope: [dt^2 * n^2 * (n^2 - 1) / 12]. *)
Lemma fit_divisor (dt0 : Q) (n : Z) :
  (inject_Z n * Signal.fit_SXX dt0 n - Signal.fit_SX dt0 n * Signal.fit_SX dt0 n
   == dt0 * dt0 * (inject_Z n * inject_Z n)
      * (inject_Z n * inject_Z n - 1) / 12)%Q.
Proof. unfold Signal.fit_SXX, Signal.fit_SX. field. Qed.

Lemma fit_divisor_zero_iff (dt0 : Q) (n : Z) :
  ~ (dt0 == 0)%Q -> (1 <= n)%Z ->
  ((inject_Z n * Signal.fit_SXX dt0 n
    - Signal.fit_SX dt0 n * Signal.fit_SX dt0 n == 0)%Q
   <-> n = 1%Z).
Proof.
  intros Hdt Hn. rewrite fit_divisor. split.
  - intros Hz.
    destruct (Z.eq_dec n 1) as [Heq|Hne]; [exact Heq|]. exfalso.
    assert (Hc : (2 <= inject_Z n)%Q).
    { change 2%Q with (inject_Z 2). rewrite <- Zle_Qle. lia. }
    assert (Hd : (0 < dt0 * dt0)%Q).
    { destruct (Qlt_le_dec 0 dt0) as [Hp|Hp]; [nra|].
      assert (dt0 < 0)%Q by (destruct (Qlt_le_dec dt0 0); [assumption | exfalso; apply Hdt; lra]).
      nra. }
    assert (Hn2 : (4 <= inject_Z n * inject_Z n)%Q) by nra.
    assert (Hprod : (0 < dt0 * dt0 * (inject_Z n * inject_Z n)
                         * (inject_Z n * inject_Z n - 1))%Q).
    { apply Qmult_lt_0_compat; [apply Qmult_lt_0_compat|]; lra. }
    unfold Qdiv in Hz. apply Qmult_integral in Hz. destruct Hz as [Hz|Hz].
    + lra.
    + discriminate Hz.
  - intros ->. change (inject_Z 1) with 1%Q. field.
Qed.

Lemma Qsum_app (l l' : list Q) : (Qsum (l ++ l') == Qsum l + Qsum l')%Q.
Proof.
  induction l as [|x l IH]; cbn [app Qsum fold_right].
  - fold (Qsum l'). ring.
  - fold (Qsum (l ++ l')) (Qsum l). rewrite IH. ring.
Qed.

(** The sums of [k] and of [k^2] over [k = 0 .. n-1]. *)
Lemma sum_of_indices (n : nat) :
  (Qsum (map (fun k => inject_Z (Z.of_nat k)) (seq 0 n))
   == inject_Z (Z.of_nat n) * (inject_Z (Z.of_nat n) - 1) / 2)%Q.
Proof.
  induction n as [|n IH].
  - cbn. reflexivity.
  - rewrite seq_S, map_app, Qsum_app, IH. cbn [Nat.add map Qsum fold_right].
    rewrite Nat2Z.inj_succ. unfold Z.succ. rewrite inject_Z_plus.
    change (inject_Z 1) with 1%Q. field.
Qed.

Lemma sum_of_squares (n : nat) :
  (Qsum (map (fun k => inject_Z (Z.of_nat k) * inject_Z (Z.of_nat k)) (seq 0 n))
   == inject_Z (Z.of_nat n) * (inject_Z (Z.of_nat n) - 1)
      * (2 * inject_Z (Z.of_nat n) - 1) / 6)%Q.
Proof.
  induction n as [|n IH].
  - cbn. reflexivity.
  - rewrite seq_S, map_app, Qsum_app, IH. cbn [Nat.add map Qsum fold_right].
    rewrite Nat2Z.inj_succ. unfold Z.succ. rewrite inject_Z_plus.
    change (inject_Z 1) with 1%Q. field.
Qed.

Lemma Qsum_scale {A : Type} (c : Q) (g : A -> Q) (l : list A) :
  (Qsum (map (fun k => c * g k) l) == c * Qsum (map g l))%Q.
Proof.
  induction l as [|x l IH]; cbn [map Qsum fold_right].
  - ring.
  - fold (Qsum (map (fun k => (c * g k)%Q) l)) (Qsum (map g l)).
    rewrite IH. ring.
Qed.

Section FitFurther.

Context `{NumLib}.

(** X11. With the phase there and [dt] other than zero, let
    [n = round(dt_chunk_target/dt)].  When the target is less than half a
    sampling interval in size, [n] is zero and [fit] raises
    [ZeroDivisionError]; when [n] is negative, [fit] raises [ValueError]
    (no array has a negative number of columns). *)
Theorem fit_rejects_nonpositive_chunk
    (r : Signal.signal) (dt_chunk_target : Q) (theta0 : list Q) :
  Signal.theta r = Some theta0 ->
  ~ (Signal.dt r == 0)%Q ->
  let n := py_round (dt_chunk_target / Signal.dt r) in
  (n = 0%Z <-> (- (1 # 2) < dt_chunk_target / Signal.dt r < 1 # 2)%Q)
  /\ (n = 0%Z -> Signal.fit dt_chunk_target r = Raise ZeroDivisionError)
  /\ ((n < 0)%Z -> Signal.fit dt_chunk_target r = Raise ValueError).
Proof.
  intros Hth Hdt n.
  split; [apply py_round_zero_iff|].
  assert (Hnpc : Signal.fit_n_per_chunk dt_chunk_target r = Ok n).
  { unfold Signal.fit_n_per_chunk. rewrite (py_fdiv_ok _ Hdt). reflexivity. }
  split.
  - intros Hz. unfold Signal.fit. rewrite Hnpc, Hth. cbn [bind getkey].
    rewrite Hz. reflexivity.
  - intros Hneg. unfold Signal.fit. rewrite Hnpc, Hth. cbn [bind getkey].
    unfold Signal.fit_n_tot_chunk, py_idiv.
    destruct (Z.eqb_spec n 0); [lia|]. cbn [bind].
    unfold Signal.fit_sub, np_reshape.
    destruct (Z.ltb_spec n 0); [|lia].
    rewrite orb_true_r. reflexivity.
Qed.

Variable r : Signal.signal.
Variable dt_chunk_target : Q.
Variable theta0 : list Q.

Hypothesis Htheta : Signal.theta r = Some theta0.
Hypothesis Hdt : ~ (Signal.dt r == 0)%Q.

Let n : Z := py_round (dt_chunk_target / Signal.dt r).
Let nn : nat := Z.to_nat n.
Let cc : nat := (length theta0 / nn)%nat.

Hypothesis Hn : (1 <= n)%Z.
Hypothesis Ht : (nn * cc <= length (Signal.t r))%nat.

(** The frequencies that [fit] returns, chunk by chunk. *)
Lemma fit_freq_by_chunk :
  exists r',
    Signal.fit dt_chunk_target r = Ok r'
    /\ Signal.fit_freq r'
       = Some (map (fun i =>
                      Signal.fit_slope (Signal.dt r) n
                        (Qsum (map (fun xy => (fst xy * snd xy)%Q)
                                   (combine
                                      (reset_row (firstn nn (skipn (i * nn) (Signal.t r))))
                                      (reset_row (firstn nn (skipn (i * nn) theta0))))))
                        (Qsum (reset_row (firstn nn (skipn (i * nn) theta0)))))
                   (seq 0 cc)).
Proof.
  destruct (@fit_result _ r dt_chunk_target theta0 Htheta Hdt Hn Ht)
    as (r' & Hok & Hfreq & _).
  fold n nn cc in Hfreq.
  exists r'. split; [exact Hok|]. rewrite Hfreq.
  rewrite !rows_of_as_map, fit_slopes_as_map. f_equal.
  apply map_ext_in. intros i Hi. apply in_seq in Hi.
  assert (Hrow : (i * nn + nn <= nn * cc)%nat) by nia.
  rewrite !row_of_prefix by exact Hrow. reflexivity.
Qed.



End FitFurther.

(** ** Binaration, further *)

Lemma binarate_range_unknown_mode (mode : string) (n : Z) :
  mode <> "start"%string -> mode <> "middle"%string -> mode <> "end"%string ->
  Signal.binarate_range mode n = (0%Z, n).
Proof.
  intros Hs Hm He. unfold Signal.binarate_range.
  apply String.eqb_neq in Hs, Hm, He. rewrite Hs, Hm, He. reflexivity.
Qed.

Lemma binarate_range_power_of_two (mode : string) (k : Z) :
  (0 <= k)%Z -> Signal.binarate_range mode (2 ^ k) = (0%Z, (2 ^ k)%Z).
Proof.
  intros Hk. unfold Signal.binarate_range, Signal.binarate_n2.
  rewrite Z.log2_pow2 by exact Hk. rewrite Z.sub_diag. cbn [Z.div].
  rewrite Zdiv_0_l, Z.add_0_l.
  destruct (mode =? "middle")%string; [reflexivity|].
  destruct (mode =? "start")%string; [reflexivity|].
  destruct (mode =? "end")%string; reflexivity.
Qed.

Section BinarateFurther.

Context `{NumLib}.

(** X14. On a record whose time array has the length of its samples,
    [binarate] returns, for any mode string, exactly when there is at
    least one sample; on no sample it raises [ValueError].  With a mode
    other than start, middle and end it truncates nothing: samples and
    time are as before, and the snapshots are taken all the same. *)
Theorem binarate_any_mode (mode : string) (r : Signal.signal) :
  length (Signal.t r) = length (Signal.s r) ->
  ((exists r', Signal.binarate mode r = Ok r') <-> (1 <= length (Signal.s r))%nat)
  /\ (length (Signal.s r) = 0%nat -> Signal.binarate mode r = Raise ValueError)
  /\ (mode <> "start"%string -> mode <> "middle"%string -> mode <> "end"%string ->
      forall r', Signal.binarate mode r = Ok r' ->
                 Signal.s r' = Signal.s r
                 /\ Signal.t r' = Signal.t r
                 /\ Signal.s_original r' = Some (Signal.s r)
                 /\ Signal.t_original r' = Some (Signal.t r)).
Proof.
  intros Ht.
  assert (Hempty : length (Signal.s r) = 0%nat ->
                   Signal.binarate mode r = Raise ValueError).
  { intros Hz. unfold Signal.binarate. rewrite Hz. reflexivity. }
  split; [|split; [exact Hempty|]].
  - split.
    + intros [r' Hok].
      destruct (length (Signal.s r)) eqn:Hl; [|lia].
      rewrite (Hempty eq_refl) in Hok. discriminate Hok.
    + intros Hn. destruct (binarate_returns mode r Hn Ht) as (r' & Hok & _).
      exists r'. exact Hok.
  - intros Hs Hm He r' Hok.
    assert (Hn : (1 <= length (Signal.s r))%nat).
    { destruct (length (Signal.s r)) eqn:Hl; [|lia].
      rewrite (Hempty eq_refl) in Hok. discriminate Hok. }
    destruct (binarate_returns mode r Hn Ht)
      as (r'' & Hok' & Hs' & Ht' & Hso & Hto & _).
    rewrite Hok in Hok'. injection Hok' as <-.
    rewrite (binarate_range_unknown_mode _ Hs Hm He) in Hs', Ht'.
    cbn [fst snd] in Hs', Ht'.
    rewrite Z.sub_0_r, Nat2Z.id in Hs', Ht'. cbn [Z.to_nat skipn] in Hs', Ht'.
    rewrite firstn_all in Hs'. rewrite <- Ht, firstn_all in Ht'.
    repeat split; assumption.
Qed.

(** X15. A second call of [binarate], with any mode string, after a call
    with one of the three modes truncates nothing more, but it takes the
    snapshots again: [s_original] and [t_original] then hold the
    truncated arrays, and the arrays as they were before the first call
    are no longer in the record. *)
Theorem binarate_again_replaces_snapshot
    (mode1 mode2 : string) (r r1 : Signal.signal) :
  (1 <= length (Signal.s r))%nat ->
  length (Signal.t r) = length (Signal.s r) ->
  mode1 = "start"%string \/ mode1 = "middle"%string \/ mode1 = "end"%string ->
  Signal.binarate mode1 r = Ok r1 ->
  exists r2,
    Signal.binarate mode2 r1 = Ok r2
    /\ Signal.s r2 = Signal.s r1
    /\ Signal.t r2 = Signal.t r1
    /\ Signal.s_original r1 = Some (Signal.s r)
    /\ Signal.s_original r2 = Some (Signal.s r1)
    /\ Signal.t_original r2 = Some (Signal.t r1).
Proof.
  intros Hn Ht Hmode Hok.
  destruct (binarate_returns mode1 r Hn Ht)
    as (r1' & Hok' & Hs1 & Ht1 & Hso1 & _).
  rewrite Hok in Hok'. injection Hok' as <-.
  rewrite (binarate_range_nat Hn Hmode) in Hs1, Ht1. cbn [fst snd] in Hs1, Ht1.
  set (n := length (Signal.s r)) in *.
  set (n2 := (2 ^ Nat.log2 n)%nat) in *.
  set (k := kept_from mode1 n n2) in *.
  pose proof (pow2_log2_le Hn) as Hle. fold n n2 in Hle.
  assert (Hk : (k + n2 <= n)%nat).
  { unfold k. destruct Hmode as [-> | [-> | ->]]; unfold kept_from;
      cbn [String.eqb Ascii.eqb Bool.eqb]; try lia.
    assert ((n - n2) / 2 <= n - n2)%nat by (apply Nat.Div0.div_le_upper_bound; lia).
    lia. }
  replace (Z.to_nat (Z.of_nat (k + n2) - Z.of_nat k)) with n2 in Hs1, Ht1 by lia.
  rewrite Nat2Z.id in Hs1, Ht1.
  assert (Hl1 : length (Signal.s r1) = n2).
  { rewrite Hs1. apply length_firstn_skipn. fold n. lia. }
  assert (Hl1t : length (Signal.t r1) = length (Signal.s r1)).
  { rewrite Hl1, Ht1. apply length_firstn_skipn. rewrite Ht. fold n. lia. }
  assert (Hpos : (1 <= length (Signal.s r1))%nat).
  { rewrite Hl1. unfold n2. pose proof (Nat.pow_nonzero 2 (Nat.log2 n)). lia. }
  destruct (binarate_returns mode2 r1 Hpos Hl1t)
    as (r2 & Hok2 & Hs2 & Ht2 & Hso2 & Hto2 & _).
  assert (Hrange : Signal.binarate_range mode2 (Z.of_nat (length (Signal.s r1)))
                   = (0%Z, Z.of_nat (length (Signal.s r1)))).
  { rewrite Hl1. unfold n2. rewrite Nat2Z.inj_pow.
    apply binarate_range_power_of_two. lia. }
  rewrite Hrange in Hs2, Ht2. cbn [fst snd] in Hs2, Ht2.
  rewrite Z.sub_0_r, Nat2Z.id in Hs2, Ht2. cbn [Z.to_nat skipn] in Hs2, Ht2.
  rewrite firstn_all in Hs2. rewrite <- Hl1t, firstn_all in Ht2.
  exists r2. repeat split; assumption.
Qed.

End BinarateFurther.

(** ** The window, outside the rise times of a taper *)

Lemma Qceiling_zero_iff (q : Q) : Qceiling q = 0%Z <-> (- (1) < q <= 0)%Q.
Proof.
  unfold Qceiling. rewrite Z.eq_opp_l. change (- 0)%Z with 0%Z.
  rewrite Qfloor_zero_iff. split; intros; lra.
Qed.

Lemma py_slice_nil {A : Type} (start stop : option Z) :
  py_slice (@nil A) start stop = [].
Proof.
  unfold py_slice. rewrite skipn_nil. apply firstn_nil.
Qed.

Lemma combine_ones_product (l : list Q) :
  Forall2 Qeq
    (map (fun p => (fst p * snd p)%Q) (combine (repeat 1%Q (length l)) l)) l.
Proof.
  induction l as [|x l IH]; cbn [length repeat combine map fst snd].
  - constructor.
  - constructor; [ring | exact IH].
Qed.

Section WindowFurther.

Context `{NumLib}.

(** X16. With [dt > 0] and a rise time [tw] with [-dt < tw <= 0], [window]
    rounds the rise to zero points: it returns, the window is one at
    every sample, the windowed signal equals the samples entry by entry,
    and [tw_actual] is zero. *)
Theorem window_without_taper (tw : Q) (r : Signal.signal) :
  (0 < Signal.dt r)%Q ->
  (- Signal.dt r < tw)%Q ->
  (tw <= 0)%Q ->
  exists r' sw' twa,
    Signal.window tw r = Ok r'
    /\ Signal.w r' = Some (repeat 1%Q (length (Signal.s r)))
    /\ Signal.sw r' = Some sw'
    /\ Forall2 Qeq sw' (Signal.s r)
    /\ Signal.tw_actual r' = Some twa
    /\ (twa == 0)%Q
    /\ Signal.s r' = Signal.s r
    /\ Signal.t r' = Signal.t r.
Proof.
  intros Hdt Hlo Hhi.
  assert (Hww : Qceiling (tw / Signal.dt r) = 0%Z).
  { apply Qceiling_zero_iff. split.
    - apply Qlt_shift_div_l; [exact Hdt | lra].
    - apply Qle_shift_div_r; [exact Hdt | lra]. }
  assert (Hnz : ~ (Signal.dt r == 0)%Q) by lra.
  destruct (@window_returns _ tw r Hnz) as (r' & wl & Hok & Hwl & _ & Hw & Hsw & Htwa & Hs & Ht & _).
  - rewrite Hww. lia.
  - rewrite Hww. lia.
  - rewrite Hww in Hwl, Htwa.
    pose proof (blackman_length (2 * 0)) as Hbl.
    change (Z.to_nat (2 * 0)) with 0%nat in Hbl.
    destruct (blackman (2 * 0)) as [|b0 bl]; [|discriminate Hbl].
    cbn [Z.to_nat firstn skipn app] in Hwl. rewrite app_nil_r in Hwl.
    replace (Z.to_nat (Z.of_nat (length (Signal.s r)) - 2 * 0))
      with (length (Signal.s r)) in Hwl by lia.
    subst wl.
    exists r'. eexists. eexists.
    split; [exact Hok|]. split; [exact Hw|]. split; [exact Hsw|].
    split; [apply combine_ones_product|]. split; [exact Htwa|].
    split; [|split; assumption].
    change (inject_Z 0) with 0%Q. ring.
Qed.


End WindowFurther.

(** ** A stage called again *)

Ltac same_binds :=
  repeat match goal with
         | |- bind ?c _ = bind ?c _ => destruct c; cbn [bind]; try reflexivity
         end.

Ltac signal_fields :=
  cbn [Signal.s Signal.s_name Signal.s_unit Signal.dt Signal.t
       Signal.s_original Signal.t_original Signal.w Signal.sw
       Signal.tw_actual Signal.swFT Signal.f Signal.df Signal.bw
       Signal.order Signal.rh Signal.f0 Signal.bp Signal.swFTfilt
       Signal.f00 Signal.td Signal.z Signal.theta Signal.a
       Signal.fit_freq Signal.fit_time].

Section StageAgain.

Context `{NumLib}.

(** X18. Five of the stages read only what earlier stages wrote, so a
    second call replaces the result of the first: [window], [filter] and
    [fit] called again with other parameters give what they would have
    given without the first call, and [fft] and [ifft] called again
    return with the dictionary [signal] as it was. *)
Theorem repeated_stage_overrides :
  (forall tw1 tw2 r r1,
      Signal.window tw1 r = Ok r1 -> Signal.window tw2 r1 = Signal.window tw2 r)
  /\ (forall r r1, Signal.fft r = Ok r1 -> Signal.fft r1 = Ok r1)
  /\ (forall bw1 order1 bw2 order2 r r1,
         Signal.filter bw1 order1 r = Ok r1 ->
         Signal.filter bw2 order2 r1 = Signal.filter bw2 order2 r)
  /\ (forall r r1, Signal.ifft r = Ok r1 -> Signal.ifft r1 = Ok r1)
  /\ (forall d1 d2 r r1,
         Signal.fit d1 r = Ok r1 -> Signal.fit d2 r1 = Signal.fit d2 r).
Proof.
  split; [|split; [|split; [|split]]].
  - intros tw1 tw2 r r1 Hok. unfold Signal.window in Hok.
    repeat inv_bind Hok. inv_ok Hok.
    unfold Signal.window. signal_fields. same_binds.
  - intros r r1 Hok. unfold Signal.fft in Hok.
    destruct (Signal.sw r) as [[|x0 sw1]|] eqn:Hsw; cbn [getkey bind] in Hok;
      [discriminate Hok | | discriminate Hok].
    repeat inv_bind Hok. inv_ok Hok.
    unfold Signal.fft. signal_fields. cbn [getkey bind].
    rewrite E. cbn [bind]. rewrite E0, E1. cbn [bind]. reflexivity.
  - intros bw1 order1 bw2 order2 r r1 Hok. unfold Signal.filter in Hok.
    repeat inv_bind Hok. inv_ok Hok.
    unfold Signal.filter, Signal.filter_swFTrh. signal_fields. same_binds.
  - intros r r1 Hok. unfold Signal.ifft in Hok.
    destruct (Signal.swFTfilt r) as [[|x0 x1]|] eqn:Hx; cbn [getkey bind] in Hok;
      [discriminate Hok | | discriminate Hok].
    inv_ok Hok.
    unfold Signal.ifft. signal_fields. cbn [getkey bind].
    reflexivity.
  - intros d1 d2 r r1 Hok. unfold Signal.fit in Hok.
    repeat inv_bind Hok. inv_ok Hok.
    unfold Signal.fit, Signal.fit_n_per_chunk. signal_fields. same_binds.
Qed.

End StageAgain.

(** ** The stages in the order of [main] *)

Lemma py_slice_both_ends_length {A : Type} (l : list A) (id : Z) :
  (1 <= id)%Z -> (2 * id <= Z.of_nat (length l))%Z ->
  length (py_slice l (Some id) (Some (- id)%Z))
  = (length l - 2 * Z.to_nat id)%nat.
Proof.
  intros H1 H2. rewrite py_slice_both_ends by assumption.
  apply drop_both_ends_decompose. lia.
Qed.

Section MainStages.

Context `{NumLib}.

Lemma binarate_to_power_of_two (mode : string) (r : Signal.signal) :
  (1 <= length (Signal.s r))%nat ->
  length (Signal.t r) = length (Signal.s r) ->
  mode = "start"%string \/ mode = "middle"%string \/ mode = "end"%string ->
  exists r1,
    Signal.binarate mode r = Ok r1
    /\ length (Signal.s r1) = (2 ^ Nat.log2 (length (Signal.s r)))%nat
    /\ length (Signal.t r1) = (2 ^ Nat.log2 (length (Signal.s r)))%nat
    /\ Signal.dt r1 = Signal.dt r.
Proof.
  intros Hn Ht Hmode.
  destruct (binarate_returns mode r Hn Ht) as (r1 & Hok & Hs1 & Ht1 & _ & _ & Hdt1).
  rewrite (binarate_range_nat Hn Hmode) in Hs1, Ht1. cbn [fst snd] in Hs1, Ht1.
  set (n := length (Signal.s r)) in *.
  set (n2 := (2 ^ Nat.log2 n)%nat) in *.
  set (k := kept_from mode n n2) in *.
  pose proof (pow2_log2_le Hn) as Hle. fold n n2 in Hle.
  assert (Hk : (k + n2 <= n)%nat).
  { unfold k. destruct Hmode as [-> | [-> | ->]]; unfold kept_from;
      cbn [String.eqb Ascii.eqb Bool.eqb]; try lia.
    assert ((n - n2) / 2 <= n - n2)%nat by (apply Nat.Div0.div_le_upper_bound; lia).
    lia. }
  replace (Z.to_nat (Z.of_nat (k + n2) - Z.of_nat k)) with n2 in Hs1, Ht1 by lia.
  rewrite Nat2Z.id in Hs1, Ht1.
  exists r1. split; [exact Hok|].
  split; [|split; [|exact Hdt1]].
  - rewrite Hs1. apply length_firstn_skipn. fold n. lia.
  - rewrite Ht1. apply length_firstn_skipn. rewrite Ht. fold n. lia.
Qed.

Lemma filter_returns_after_fft (r r1 : Signal.signal) (bw0 : Q) (order0 : Z)
      (sw0 : list Q) :
  Signal.sw r = Some sw0 ->
  Signal.fft r = Ok r1 ->
  (0 < Signal.dt r)%Q ->
  ~ (bw0 == 0)%Q ->
  exists r2 x,
    Signal.filter bw0 order0 r1 = Ok r2
    /\ Signal.swFTfilt r2 = Some x
    /\ length x = length sw0
    /\ Signal.td r2 = Some ((5 # 4) / bw0)%Q
    /\ Signal.dt r2 = Signal.dt r
    /\ Signal.s r2 = Signal.s r
    /\ Signal.t r2 = Signal.t r.
Proof.
  intros Hsw Hfft Hdt Hbw.
  destruct (fft_inversion r Hfft) as (sw0' & Hsw' & Hlen0 & Hnz).
  rewrite Hsw in Hsw'. injection Hsw' as <-.
  destruct (fft_result r Hsw Hlen0 Hnz) as (r1' & Hok & HswFT0 & _).
  rewrite Hfft in Hok. injection Hok as <-.
  destruct (after_fft r Hfft Hdt)
    as (f' & df' & swFT' & rh' & Hf & Hdf & HswFT & Hlen & Hn & Hrh & Hrhl & _
        & Hdt1 & Hs1 & Ht1).
  assert (Hfl : length f' = length sw0).
  { rewrite <- Hlen. rewrite HswFT in HswFT0. injection HswFT0 as ->.
    rewrite fftshift_length, np_fft_length. reflexivity. }
  assert (Hne : f' <> []) by (destruct f'; [cbn in Hn; lia | discriminate]).
  destruct (@filter_result _ r1 bw0 order0 f' df' swFT' rh' Hf Hdf HswFT Hrh Hlen Hne)
    as (k & mag & _ & _ & _ & _ & _ & Hok).
  destruct (Hok Hbw)
    as (r2 & bp' & swFTfilt' & Hfil & Hbp & Hsf & _ & _ & _ & Hsf2 & _
        & Htd & _ & _ & Hs2 & Ht2 & Hdt2 & _).
  exists r2, swFTfilt'. split; [exact Hfil|]. split; [exact Hsf2|].
  split; [|split; [exact Htd|split; [congruence|split; congruence]]].
  rewrite Hsf, Hbp, length_map, length_combine, !length_map, length_combine.
  lia.
Qed.


End MainStages.

(** ** The order of the stages *)

Section StageOrder.

Context `{NumLib}.

Lemma run_stages_app (pre post : list stage) (r : Signal.signal) :
  run_stages (pre ++ post) r = bind (run_stages pre r) (run_stages post).
Proof.
  revert r. induction pre as [|st pre IH]; intros r; [reflexivity|].
  cbn [app run_stages]. destruct (run_stage st r); cbn [bind];
    [apply IH | reflexivity | reflexivity].
Qed.

(** The keys that a stage reads before anything else. *)
Lemma run_stage_reads (st : stage) (r r1 : Signal.signal) :
  run_stage st r = Ok r1 ->
  match st with
  | Binarate _ | Window _ => True
  | Fft => Signal.sw r <> None
  | Filter _ _ => Signal.f r <> None
  | Ifft => Signal.swFTfilt r <> None
  | Trim => Signal.td r <> None /\ Signal.z r <> None
  | Fit _ => Signal.theta r <> None
  end.
Proof.
  destruct st; cbn [run_stage]; intros Hok; try exact I.
  - unfold Signal.fft in Hok. destruct (Signal.sw r); [discriminate | discriminate Hok].
  - unfold Signal.filter in Hok. destruct (Signal.f r); [discriminate | discriminate Hok].
  - unfold Signal.ifft in Hok.
    destruct (Signal.swFTfilt r); [discriminate | discriminate Hok].
  - unfold Signal.trim, Signal.trim_id in Hok.
    destruct (Signal.td r); [|discriminate Hok]. split; [discriminate|].
    cbn [getkey bind] in Hok. repeat inv_bind Hok.
    destruct (Signal.z r); [discriminate | discriminate E0].
  - unfold Signal.fit in Hok. inv_bind Hok.
    destruct (Signal.theta r); [discriminate | discriminate Hok].
Qed.

(** A key that is there after a stage was there before it, or the stage
    is the one that writes it first. *)
Lemma run_stage_writes (st : stage) (r r1 : Signal.signal) :
  run_stage st r = Ok r1 ->
  (Signal.sw r1 <> None -> Signal.sw r <> None \/ exists tw, st = Window tw)
  /\ (Signal.f r1 <> None -> Signal.f r <> None \/ st = Fft)
  /\ (Signal.swFTfilt r1 <> None ->
      Signal.swFTfilt r <> None \/ exists bw0 order0, st = Filter bw0 order0)
  /\ (Signal.td r1 <> None ->
      Signal.td r <> None \/ exists bw0 order0, st = Filter bw0 order0)
  /\ (Signal.z r1 <> None -> Signal.z r <> None \/ st = Ifft)
  /\ (Signal.theta r1 <> None -> Signal.theta r <> None \/ st = Ifft).
Proof.
  intros Hok. pose proof (run_stage_reads st r Hok) as Hreads.
  destruct st; cbn [run_stage] in Hok.
  - unfold Signal.binarate in Hok.
    destruct (Z.of_nat (length (Signal.s r)) <=? 0)%Z; [discriminate Hok|].
    destruct (Signal.binarate_range mode _) as [n_start n_stop].
    repeat inv_bind Hok. inv_ok Hok. signal_fields. tauto.
  - unfold Signal.window in Hok. repeat inv_bind Hok. inv_ok Hok.
    signal_fields. repeat split; eauto.
  - unfold Signal.fft in Hok. inv_bind Hok.
    match type of Hok with
    | match ?l with _ => _ end = _ => destruct l; [discriminate Hok|]
    end.
    repeat inv_bind Hok. inv_ok Hok. signal_fields. repeat split; eauto.
  - unfold Signal.filter in Hok. repeat inv_bind Hok. inv_ok Hok.
    signal_fields. repeat split; eauto.
  - unfold Signal.ifft in Hok. inv_bind Hok.
    match type of Hok with
    | match ?l with _ => _ end = _ => destruct l; [discriminate Hok|]
    end.
    inv_ok Hok. signal_fields. repeat split; eauto.
  - destruct Hreads as [_ Hz].
    unfold Signal.trim in Hok. repeat inv_bind Hok. inv_ok Hok.
    signal_fields. repeat split; eauto.
    intros _. left. destruct (Signal.theta r); [discriminate | discriminate E1].
  - unfold Signal.fit in Hok. repeat inv_bind Hok. inv_ok Hok.
    signal_fields. repeat split; eauto.
Qed.

Lemma run_stages_writes (pre : list stage) (r r1 : Signal.signal) :
  run_stages pre r = Ok r1 ->
  (Signal.sw r1 <> None -> Signal.sw r <> None \/ exists tw, In (Window tw) pre)
  /\ (Signal.f r1 <> None -> Signal.f r <> None \/ In Fft pre)
  /\ (Signal.swFTfilt r1 <> None ->
      Signal.swFTfilt r <> None \/ exists bw0 order0, In (Filter bw0 order0) pre)
  /\ (Signal.td r1 <> None ->
      Signal.td r <> None \/ exists bw0 order0, In (Filter bw0 order0) pre)
  /\ (Signal.z r1 <> None -> Signal.z r <> None \/ In Ifft pre)
  /\ (Signal.theta r1 <> None -> Signal.theta r <> None \/ In Ifft pre).
Proof.
  revert r. induction pre as [|st pre IH]; intros r Hok.
  - cbn [run_stages] in Hok. injection Hok as <-. tauto.
  - cbn [run_stages] in Hok. inv_bind Hok.
    match goal with
    | E : run_stage st r = Ok ?r2 |- _ =>
        destruct (run_stage_writes st r E) as (W1 & W2 & W3 & W4 & W5 & W6);
        destruct (IH r2 Hok) as (I1 & I2 & I3 & I4 & I5 & I6)
    end.
    cbn [In].
    split; [|split; [|split; [|split; [|split]]]]; intros Hkey.
    + destruct (I1 Hkey) as [Hb | (tw & Hin)]; [|right; eauto].
      destruct (W1 Hb) as [Hc | (tw & ->)]; [left; exact Hc | right; eauto].
    + destruct (I2 Hkey) as [Hb | Hin]; [|right; eauto].
      destruct (W2 Hb) as [Hc | ->]; [left; exact Hc | right; eauto].
    + destruct (I3 Hkey) as [Hb | (b & o & Hin)]; [|right; eauto].
      destruct (W3 Hb) as [Hc | (b & o & ->)]; [left; exact Hc | right; eauto].
    + destruct (I4 Hkey) as [Hb | (b & o & Hin)]; [|right; eauto].
      destruct (W4 Hb) as [Hc | (b & o & ->)]; [left; exact Hc | right; eauto].
    + destruct (I5 Hkey) as [Hb | Hin]; [|right; eauto].
      destruct (W5 Hb) as [Hc | ->]; [left; exact Hc | right; eauto].
    + destruct (I6 Hkey) as [Hb | Hin]; [|right; eauto].
      destruct (W6 Hb) as [Hc | ->]; [left; exact Hc | right; eauto].
Qed.

(** X20. The order of the stages is enforced by the keys of the record:
    in any sequence of calls on a record fresh from the constructor in
    which every call returns, [fft] comes after a call of [window],
    [filter] after a call of [fft], [ifft] after a call of [filter],
    [trim] after calls of [filter] and [ifft], and [fit] after a call of
    [ifft].  [binarate] and [window] need no earlier call. *)
Theorem stage_order_is_enforced
    (s0 : list Q) (s_name0 s_unit0 : string) (dt0 : Q)
    (pre post : list stage) (st : stage) (r' : Signal.signal) :
  run_stages (pre ++ st :: post) (Signal.init_signal s0 s_name0 s_unit0 dt0)
  = Ok r' ->
  match st with
  | Binarate _ | Window _ => True
  | Fft => exists tw, In (Window tw) pre
  | Filter _ _ => In Fft pre
  | Ifft => exists bw0 order0, In (Filter bw0 order0) pre
  | Trim => (exists bw0 order0, In (Filter bw0 order0) pre) /\ In Ifft pre
  | Fit _ => In Ifft pre
  end.
Proof.
  intros Hok. rewrite run_stages_app in Hok. inv_bind Hok.
  cbn [run_stages] in Hok. inv_bind Hok.
  match goal with
  | E1 : run_stages pre _ = Ok ?r1, E2 : run_stage st ?r1 = Ok _ |- _ =>
      pose proof (run_stage_reads st r1 E2) as Hreads;
      destruct (run_stages_writes pre _ E1) as (W1 & W2 & W3 & W4 & W5 & W6)
  end.
  cbn [Signal.init_signal Signal.sw Signal.f Signal.swFTfilt Signal.td
       Signal.z Signal.theta] in W1, W2, W3, W4, W5, W6.
  destruct st; try exact I.
  - destruct (W1 Hreads) as [Hc | Hin]; [congruence | exact Hin].
  - destruct (W2 Hreads) as [Hc | Hin]; [congruence | exact Hin].
  - destruct (W3 Hreads) as [Hc | Hin]; [congruence | exact Hin].
  - destruct Hreads as [Htd Hz]. split.
    + destruct (W4 Htd) as [Hc | Hin]; [congruence | exact Hin].
    + destruct (W5 Hz) as [Hc | Hin]; [congruence | exact Hin].
  - destruct (W6 Hreads) as [Hc | Hin]; [congruence | exact Hin].
Qed.

Lemma zero_dt_run_stage (st : stage) (r r1 : Signal.signal) :
  (Signal.dt r == 0)%Q ->
  Signal.sw r = None -> Signal.f r = None -> Signal.swFTfilt r = None ->
  Signal.td r = None ->
  run_stage st r = Ok r1 ->
  (exists mode, st = Binarate mode)
  /\ (Signal.dt r1 == 0)%Q
  /\ Signal.sw r1 = None /\ Signal.f r1 = None /\ Signal.swFTfilt r1 = None
  /\ Signal.td r1 = None.
Proof.
  intros Hdt Hsw Hf Hx Htd Hok.
  pose proof (run_stage_reads st r Hok) as Hreads.
  destruct st; cbn [run_stage] in Hok.
  - split; [eauto|].
    unfold Signal.binarate in Hok.
    destruct (Z.of_nat (length (Signal.s r)) <=? 0)%Z; [discriminate Hok|].
    destruct (Signal.binarate_range mode _) as [n_start n_stop].
    repeat inv_bind Hok. inv_ok Hok. signal_fields. tauto.
  - exfalso. unfold Signal.window, py_fdiv in Hok.
    destruct (Qeq_bool (1 * Signal.dt r) 0) eqn:E; [discriminate Hok|].
    apply Qeq_bool_neq in E. apply E. rewrite Hdt. ring.
  - congruence.
  - congruence.
  - congruence.
  - destruct Hreads. congruence.
  - exfalso. unfold Signal.fit, Signal.fit_n_per_chunk, py_fdiv in Hok.
    destruct (Qeq_bool (Signal.dt r) 0) eqn:E; [discriminate Hok|].
    apply Qeq_bool_neq in E. contradiction.
Qed.

(** X21. The constructor accepts a time per point of zero, and then no
    analysis can be made: in any sequence of calls on that record in
    which every call returns, every call is [binarate].  ([window] and
    [fit] divide by [dt], and the other stages need what [window]
    writes.) *)
Theorem zero_dt_allows_only_binarate
    (s0 : list Q) (s_name0 s_unit0 : string) (dt0 : Q)
    (sts : list stage) (r' : Signal.signal) :
  (dt0 == 0)%Q ->
  run_stages sts (Signal.init_signal s0 s_name0 s_unit0 dt0) = Ok r' ->
  forall st, In st sts -> exists mode, st = Binarate mode.
Proof.
  intros Hdt.
  assert (Hgen : forall r,
             (Signal.dt r == 0)%Q ->
             Signal.sw r = None -> Signal.f r = None ->
             Signal.swFTfilt r = None -> Signal.td r = None ->
             run_stages sts r = Ok r' ->
             forall st, In st sts -> exists mode, st = Binarate mode).
  { induction sts as [|st0 sts IH]; intros r H0 H1 H2 H3 H4 Hok st Hin.
    - destruct Hin.
    - cbn [run_stages] in Hok. inv_bind Hok.
      match goal with
      | E : run_stage st0 r = Ok ?r2 |- _ =>
          destruct (@zero_dt_run_stage st0 r _ H0 H1 H2 H3 H4 E)
            as (Hb & K0 & K1 & K2 & K3 & K4);
          destruct Hin as [<- | Hin];
            [exact Hb | exact (IH r2 K0 K1 K2 K3 K4 Hok st Hin)]
      end. }
  apply Hgen; [exact Hdt | reflexivity | reflexivity | reflexivity | reflexivity].
Qed.

End StageOrder.

(** * Concrete runs of the further properties *)

(** X4, witness: eight samples, [dt = 1/2], a filter of bandwidth one. *)
Lemma filter_after_fft_witness :
  exists r2 f0',
    Signal.filter 1 2 (Demo.transformed (Demo.ramp 8) (1 # 2)) = Ok r2
    /\ Signal.f0 r2 = Some f0'
    /\ Signal.td r2 = Some ((5 # 4) / 1)%Q.
Proof.
  pose (D := Demo.windowed (Demo.ramp 8) (1 # 2)).
  pose (R1 := Demo.transformed (Demo.ramp 8) (1 # 2)).
  assert (Hfft : Signal.fft D = Ok R1) by (vm_compute; reflexivity).
  assert (Hdt : (0 < Signal.dt D)%Q) by (vm_compute; reflexivity).
  destruct (@filter_after_fft rational_lib D R1 1 2 Hfft Hdt) as [_ Hret].
  destruct Hret
    as (r2 & f' & rh' & bp' & x & f0' & Hok & _ & _ & _ & _ & Hf0 & _ & _ & _ & _
        & Htd & _).
  - vm_compute. discriminate.
  - exists r2, f0'. split; [exact Hok|]. split; [exact Hf0 | exact Htd].
Defined.

(** X5, witness: on the same record the carrier is the last bin. *)
Lemma filter_carrier_witness :
  exists k ck,
    (k < 8)%nat
    /\ nth_error (Demo.value [] (Signal.swFT (Demo.transformed (Demo.ramp 8) (1 # 2))))
                 k = Some ck
    /\ Signal.f0 (Demo.run (Signal.filter 1 2 (Demo.transformed (Demo.ramp 8) (1 # 2))))
       = Some (nth k (Demo.value [] (Signal.f (Demo.transformed (Demo.ramp 8) (1 # 2))))
                   0%Q).
Proof.
  pose (D := Demo.windowed (Demo.ramp 8) (1 # 2)).
  pose (R1 := Demo.transformed (Demo.ramp 8) (1 # 2)).
  pose (R2 := Demo.run (Signal.filter 1 2 R1)).
  assert (Hfft : Signal.fft D = Ok R1) by (vm_compute; reflexivity).
  assert (Hdt : (0 < Signal.dt D)%Q) by (vm_compute; reflexivity).
  assert (Hfil : Signal.filter 1 2 R1 = Ok R2) by (vm_compute; reflexivity).
  assert (Hf : Signal.f R1 = Some (Demo.value [] (Signal.f R1)))
    by (vm_compute; reflexivity).
  assert (Hsw : Signal.swFT R1 = Some (Demo.value [] (Signal.swFT R1)))
    by (vm_compute; reflexivity).
  destruct (@filter_carrier_is_peak rational_lib D R1 R2 1 2 _ _
              Hfft Hdt Hfil Hf Hsw)
    as (k & ck & Hk & Hf0 & Hck & _).
  exists k, ck. split; [exact Hk|]. split; [exact Hck | exact Hf0].
Defined.


(** X7, witness: the first moment of that filtered spectrum. *)
Lemma filter_moment_witness :
  (0 < Demo.value 0
         (Demo.value None
            (Signal.f00
               (Demo.run (Signal.filter 1 2
                            (Demo.transformed (Demo.ramp 8) (1 # 2)))))))%Q.
Proof.
  pose (D := Demo.windowed (Demo.ramp 8) (1 # 2)).
  pose (R1 := Demo.transformed (Demo.ramp 8) (1 # 2)).
  pose (R2 := Demo.run (Signal.filter 1 2 R1)).
  assert (Hfft : Signal.fft D = Ok R1) by (vm_compute; reflexivity).
  assert (Hdt : (0 < Signal.dt D)%Q) by (vm_compute; reflexivity).
  assert (Hfil : Signal.filter 1 2 R1 = Ok R2) by (vm_compute; reflexivity).
  assert (Hf : Signal.f R1 = Some (Demo.value [] (Signal.f R1)))
    by (vm_compute; reflexivity).
  assert (Hq : Signal.f00 R2
               = Some (Some (Demo.value 0%Q (Demo.value None (Signal.f00 R2)))))
    by (vm_compute; reflexivity).
  exact (proj1 (@filter_moment_is_positive rational_lib D R1 R2 1 2 _ _
                  Hfft Hdt Hfil Hf Hq)).
Defined.

(** X9, witness: four samples and [idx = 2]. *)
Lemma trim_short_witness :
  exists r',
    Signal.trim (Demo.analytic (Demo.ramp 4) 1 (25 # 52)) = Ok r'
    /\ Signal.t r' = [].
Proof.
  pose (D := Demo.analytic (Demo.ramp 4) 1 (25 # 52)).
  assert (Htd : Signal.td D = Some ((5 # 4) / (25 # 52))%Q)
    by (vm_compute; reflexivity).
  assert (Hz : Signal.z D = Some (Demo.value [] (Signal.z D)))
    by (vm_compute; reflexivity).
  assert (Hth : Signal.theta D = Some (Demo.value [] (Signal.theta D)))
    by (vm_compute; reflexivity).
  assert (Ha : Signal.a D = Some (Demo.value [] (Signal.a D)))
    by (vm_compute; reflexivity).
  assert (Hdt : ~ (Signal.dt D == 0)%Q) by (vm_compute; discriminate).
  destruct (@trim_empties_short_arrays rational_lib D _ _ _ _ Htd Hz Hth Ha Hdt)
    as (r' & Hok & _ & _ & _ & Ht & _).
  1-5: (vm_compute; discriminate).
  exists r'. split; [exact Hok | exact Ht].
Defined.


(** X11, witness: a chunk of a tenth of the time per point. *)
Lemma fit_zero_chunk_witness :
  Signal.fit (1 # 10) (Demo.analytic (Demo.ramp 5) 1 (25 # 52))
  = Raise ZeroDivisionError.
Proof.
  pose (D := Demo.analytic (Demo.ramp 5) 1 (25 # 52)).
  assert (Hth : Signal.theta D = Some (Demo.value [] (Signal.theta D)))
    by (vm_compute; reflexivity).
  assert (Hdt : ~ (Signal.dt D == 0)%Q) by (vm_compute; discriminate).
  destruct (@fit_rejects_nonpositive_chunk rational_lib D (1 # 10) _ Hth Hdt)
    as (_ & Hzero & _).
  apply Hzero. vm_compute. reflexivity.
Defined.



(** X14, witness: five samples and a mode that is none of the three. *)
Lemma binarate_any_mode_witness :
  exists r',
    Signal.binarate "all" (Demo.constructed (Demo.ramp 5) 1) = Ok r'
    /\ Signal.s r' = Demo.ramp 5.
Proof.
  pose (D := Demo.constructed (Demo.ramp 5) 1).
  assert (Hlen : length (Signal.t D) = length (Signal.s D))
    by (vm_compute; reflexivity).
  destruct (@binarate_any_mode rational_lib "all" D Hlen) as (Hiff & _ & Hkeep).
  destruct (proj2 Hiff) as [r' Hok]; [vm_compute; lia|].
  exists r'. split; [exact Hok|].
  destruct (Hkeep ltac:(discriminate) ltac:(discriminate) ltac:(discriminate)
                  r' Hok) as (Hs & _).
  rewrite Hs. reflexivity.
Defined.

(** X15, witness: five samples, the middle four kept, then a second
    call. *)
Lemma binarate_again_witness :
  exists r2,
    Signal.binarate "start"
      (Demo.run (Signal.binarate "middle" (Demo.constructed (Demo.ramp 5) 1)))
    = Ok r2
    /\ Signal.s_original r2 = Some (map inject_Z [1; 2; 3; 4]%Z).
Proof.
  pose (D := Demo.constructed (Demo.ramp 5) 1).
  pose (R1 := Demo.run (Signal.binarate "middle" D)).
  assert (Hn : (1 <= length (Signal.s D))%nat) by (vm_compute; lia).
  assert (Hlen : length (Signal.t D) = length (Signal.s D))
    by (vm_compute; reflexivity).
  assert (Hmode : "middle"%string = "start"%string
                  \/ "middle"%string = "middle"%string
                  \/ "middle"%string = "end"%string)
    by (right; left; reflexivity).
  assert (Hok1 : Signal.binarate "middle" D = Ok R1) by (vm_compute; reflexivity).
  destruct (@binarate_again_replaces_snapshot rational_lib "middle" "start" D R1
              Hn Hlen Hmode Hok1)
    as (r2 & Hok2 & _ & _ & _ & Hso & _).
  exists r2. split; [exact Hok2|]. rewrite Hso. vm_compute. reflexivity.
Defined.

(** X16, witness: [dt = 1/2] and a rise time of [-1/4]. *)
Lemma window_without_taper_witness :
  exists r',
    Signal.window (- (1 # 4)) (Demo.constructed (Demo.ramp 5) (1 # 2)) = Ok r'
    /\ Signal.w r' = Some (repeat 1%Q 5).
Proof.
  pose (D := Demo.constructed (Demo.ramp 5) (1 # 2)).
  assert (Hdt : (0 < Signal.dt D)%Q) by (vm_compute; reflexivity).
  assert (Hlo : (- Signal.dt D < - (1 # 4))%Q) by (vm_compute; reflexivity).
  assert (Hhi : (- (1 # 4) <= 0)%Q) by (vm_compute; discriminate).
  destruct (@window_without_taper rational_lib (- (1 # 4)) D Hdt Hlo Hhi)
    as (r' & sw' & twa & Hok & Hw & _).
  exists r'. split; [exact Hok | exact Hw].
Defined.



(** X20, witness: the stages up to the inverse transform, seen from the
    call of [fft]. *)
Lemma stage_order_witness : exists tw, In (Window tw) [Window 0].
Proof.
  apply (@stage_order_is_enforced rational_lib (Demo.ramp 5) "x" "nm" 1
           [Window 0] [Filter 1 2; Ifft] Fft
           (Demo.analytic (Demo.ramp 5) 1 1)).
  vm_compute. reflexivity.
Defined.

(** X21, witness: three samples, [dt = 0] and two calls of [binarate]. *)
Lemma zero_dt_witness : exists mode, Binarate "all" = Binarate mode.
Proof.
  pose (D := Signal.init_signal (map inject_Z [1; 2; 3]%Z) "x" "nm" 0).
  pose (sts := [Binarate "end"; Binarate "all"]).
  assert (Hdt : (0 == 0)%Q) by reflexivity.
  assert (Hrun : @run_stages rational_lib sts D
                 = Ok (Demo.run (@run_stages rational_lib sts D)))
    by (vm_compute; reflexivity).
  assert (Hin : In (Binarate "all") sts) by (right; left; reflexivity).
  exact (@zero_dt_allows_only_binarate rational_lib
           (map inject_Z [1; 2; 3]%Z) "x" "nm" 0 sts _ Hdt Hrun
           (Binarate "all") Hin).
Defined.
